(** * DeepL Translate plugin for Nicotine+ : a shallow embedding

    The plugin lives in one Python module, [__init__.py].  This file
    embeds its helper functions, the two translation clients, the
    asynchronous dispatcher and the chat event handlers, and proves
    properties of them.

    Conventions of the embedding:
    - a Python [str] is a list of Unicode code points ([N]);
    - the Unicode tables behind [str.isalpha], [str.isspace], [str.upper]
      and [str.lower] are an interface ([Unicode]) whose ASCII part is
      pinned down by laws;
    - values of dynamic type (what [json.loads] returns) are [pyval];
    - effectful code is a program tree ([prog]) run by an interpreter
      that tags each effect with the thread it happens on. *)

From Stdlib Require Import ZArith NArith List String Ascii Lia Bool.
From Stdlib Require Import Floats.SpecFloat.
From stdpp Require Import base option list gmap.
Import ListNotations.

Set Warnings "-register-all".
Local Open Scope N_scope.
Local Open Scope list_scope.

(** ** Python strings *)

Abbreviation char := N (only parsing).
Abbreviation str := (list N) (only parsing).

(** [py "abc"] is the Python literal ["abc"] (ASCII literals only). *)
Definition py (s : string) : str :=
  map N_of_ascii (list_ascii_of_string s).

Arguments py s : simpl never.

Definition dquote : char := 34.
Definition squote : char := 39.
Definition hyphen : char := 45.
Definition underscore : char := 95.
Definition newline : char := 10.
Definition arrow : char := 8594.

Definition str_eqb (a b : str) : bool := bool_decide (a = b).

(** [not s] for a string. *)
Definition str_falsy (s : str) : bool :=
  match s with [] => true | _ => false end.

Fixpoint startswith (s p : str) : bool :=
  match p, s with
  | [], _ => true
  | c :: p', d :: s' => N.eqb c d && startswith s' p'
  | _ :: _, [] => false
  end.

Definition endswith (s p : str) : bool := startswith (rev s) (rev p).

(** [needle in hay] for two strings: substring test. *)
Fixpoint contains (needle hay : str) : bool :=
  startswith hay needle ||
  match hay with
  | [] => false
  | _ :: hay' => contains needle hay'
  end.

(** [text[1:-1]] *)
Definition slice_1_m1 (text : str) : str := removelast (tl text).

(** [sep.join(parts)] *)
Fixpoint join (sep : str) (parts : list str) : str :=
  match parts with
  | [] => []
  | [p] => p
  | p :: ps => p ++ sep ++ join sep ps
  end.

(** [s.strip(chars)]: the characters of [chars] are removed from both
    ends of [s]. *)
Fixpoint lstrip_chars (chars s : str) : str :=
  match s with
  | c :: s' => if existsb (N.eqb c) chars then lstrip_chars chars s' else s
  | [] => []
  end.

Definition strip_chars (chars s : str) : str :=
  lstrip_chars chars (rev (lstrip_chars chars (rev s))).

(** [s.encode('utf-8')] succeeds: [s] holds no surrogate code point
    (U+D800 to U+DFFF).  On any other string [urlencode] raises
    [UnicodeEncodeError]. *)
Definition surrogate (c : char) : bool := N.leb 55296 c && N.leb c 57343.
Definition encodable (s : str) : bool := forallb (fun c => negb (surrogate c)) s.

(** ** The Unicode tables

    [str.isalpha], [str.isspace], [str.upper] and [str.lower] consult the
    Unicode character database, which is not part of the plugin.  They
    are taken as an interface; the laws fix their behaviour on ASCII. *)

Definition ascii_isupper (c : char) : bool := (65 <=? c) && (c <=? 90).
Definition ascii_islower (c : char) : bool := (97 <=? c) && (c <=? 122).
Definition ascii_isalpha (c : char) : bool := ascii_isupper c || ascii_islower c.
Definition ascii_isspace (c : char) : bool :=
  ((9 <=? c) && (c <=? 13)) || ((28 <=? c) && (c <=? 32)).
Definition ascii_upper (c : char) : char := if ascii_islower c then c - 32 else c.
Definition ascii_lower (c : char) : char := if ascii_isupper c then c + 32 else c.
Definition is_ascii (c : char) : Prop := c < 128.

Class Unicode := {
  isalpha : char -> bool;
  isspace : char -> bool;
  upper : str -> str;
  lower : str -> str;
  isalpha_ascii : forall c, is_ascii c -> isalpha c = ascii_isalpha c;
  isspace_ascii : forall c, is_ascii c -> isspace c = ascii_isspace c;
  upper_ascii : forall s, Forall is_ascii s -> upper s = map ascii_upper s;
  lower_ascii : forall s, Forall is_ascii s -> lower s = map ascii_lower s
}.

(** The smallest table: nothing outside ASCII is a letter, a space or
    cased.  It agrees with Python on every ASCII string. *)
#[refine] Instance ascii_only : Unicode := {|
  isalpha c := (c <? 128) && ascii_isalpha c;
  isspace c := (c <? 128) && ascii_isspace c;
  upper s := map (fun c => if c <? 128 then ascii_upper c else c) s;
  lower s := map (fun c => if c <? 128 then ascii_lower c else c) s
|}.
Proof.
  - intros c Hc. apply N.ltb_lt in Hc. now rewrite Hc.
  - intros c Hc. apply N.ltb_lt in Hc. now rewrite Hc.
  - intros s Hs. induction Hs as [|c s Hc _ IH]; [reflexivity|].
    cbn [map]. apply N.ltb_lt in Hc. now rewrite Hc, IH.
  - intros s Hs. induction Hs as [|c s Hc _ IH]; [reflexivity|].
    cbn [map]. apply N.ltb_lt in Hc. now rewrite Hc, IH.
Defined.

Section Strings.
Context {U : Unicode}.

(** ** [str.strip()] and [str.split()] *)

Fixpoint lstrip (s : str) : str :=
  match s with
  | c :: s' => if isspace c then lstrip s' else s
  | [] => []
  end.

Definition rstrip (s : str) : str := rev (lstrip (rev s)).

Definition strip (s : str) : str := lstrip (rstrip s).

(** [s.split()]: the maximal runs of non-whitespace characters.
    [cur] is the run being read, reversed. *)
Fixpoint split_ws (cur : str) (s : str) : list str :=
  match s with
  | [] => match cur with [] => [] | _ => [rev cur] end
  | c :: s' =>
      if isspace c
      then match cur with [] => split_ws [] s' | _ => rev cur :: split_ws [] s' end
      else split_ws (c :: cur) s'
  end.

Definition split (s : str) : list str := split_ws [] s.

(** ** The Language-Token Validator

<<
    def _looks_like_lang(token):
        if not token or len(token) > 10:
            return False
        for ch in token:
            if not (ch.isalpha() or ch in {'-', '_'}):
                return False
        return True
>> *)

Definition lang_char (ch : char) : bool :=
  isalpha ch || (N.eqb ch hyphen || N.eqb ch underscore).

Definition _looks_like_lang (token : str) : bool :=
  if str_falsy token || (10 <? length token)%nat then false
  else forallb lang_char token.

End Strings.

(** ** The Quote Normalizer

<<
    def _strip_wrapping_quotes(text: str) -> str:
        if len(text) >= 2:
            pairs = [(DQ, DQ), (SQ, SQ)]     # the double and the single quote
            for opener, closer in pairs:
                if text.startswith(opener) and text.endswith(closer):
                    return text[1:-1]
        return text
>> *)

Definition quote_pairs : list (str * str) :=
  [([dquote], [dquote]); ([squote], [squote])].

Fixpoint strip_loop (text : str) (pairs : list (str * str)) : str :=
  match pairs with
  | (opener, closer) :: pairs' =>
      if startswith text opener && endswith text closer
      then slice_1_m1 text
      else strip_loop text pairs'
  | [] => text
  end.

Definition _strip_wrapping_quotes (text : str) : str :=
  if (2 <=? length text)%nat then strip_loop text quote_pairs else text.

(** ** Values of dynamic type

    What [json.loads] can return, which is also what the translation
    clients hand on: [None], booleans, integers, floats, strings, lists
    and dictionaries with string keys.  A dictionary is the list of its
    items; a key occurs once, and lookup takes its binding. *)

Inductive pyval : Type :=
| PNone
| PBool (b : bool)
| PInt (z : Z)
| PFloat (f : spec_float)
| PStr (s : str)
| PList (l : list pyval)
| PDict (d : list (str * pyval)).

(** [bool(v)] *)
Definition truthy (v : pyval) : bool :=
  match v with
  | PNone => false
  | PBool b => b
  | PInt z => negb (Z.eqb z 0)
  | PFloat (S754_zero _) => false
  | PFloat _ => true
  | PStr s => negb (str_falsy s)
  | PList [] => false
  | PList _ => true
  | PDict [] => false
  | PDict _ => true
  end.

(** [v is None] *)
Definition is_none (v : pyval) : bool :=
  match v with PNone => true | _ => false end.

Fixpoint lookup_key (key : str) (d : list (str * pyval)) : option pyval :=
  match d with
  | [] => None
  | (k, v) :: d' => if str_eqb k key then Some v else lookup_key key d'
  end.

(** [a or b] on strings *)
Definition str_or (a b : str) : str := if str_falsy a then b else a.

(** ** Plugin state *)

Record settings_t : Type := {
  api_key : str;
  target_lang : str;
  preserve_formatting : bool;
  auto_translate_incoming : bool;
  auto_incoming_target_lang : str
}.

(** The attributes of [self] the handlers use; [login_username] is the
    host's [self.core.users.login_username] ([None] before login). *)
Record plugin : Type := {
  settings : settings_t;
  _last_public_message : gmap str (str * str);
  _last_private_message : gmap str (str * str);
  login_username : option str
}.

Definition set_last_public (f : gmap str (str * str) -> gmap str (str * str))
    (p : plugin) : plugin :=
  {| settings := settings p;
     _last_public_message := f (_last_public_message p);
     _last_private_message := _last_private_message p;
     login_username := login_username p |}.

Definition set_last_private (f : gmap str (str * str) -> gmap str (str * str))
    (p : plugin) : plugin :=
  {| settings := settings p;
     _last_public_message := _last_public_message p;
     _last_private_message := f (_last_private_message p);
     login_username := login_username p |}.

(** ** Effects and programs *)

Definition DEEPL_API_URL : str := py "https://api-free.deepl.com/v2/translate".
Definition PLUGIN_VERSION : str := py "0.3.4".

(** The request handed to [urlopen]: [data] is the [params] dictionary
    in insertion order, before [urlencode] turns it into bytes. *)
Record request : Type := {
  url : str;
  data : list (str * str);
  content_type : str;
  timeout : Z
}.

(** What comes back from [urlopen(...)], [response.read()] and
    [json.loads(body)] taken together. *)
Inductive response : Type :=
| Failed (error : str)      (* urlopen or read raised [error] *)
| NotJson                   (* the body was read, json.loads raised *)
| Json (payload : pyval).   (* the parsed body *)

Inductive effect : Type :=
| Output (msg : str)                  (* self.output(msg) *)
| EchoPublic (room msg : str)         (* self.echo_public(room, msg, message_type='command') *)
| EchoPrivate (user msg : str)        (* self.echo_private(user, msg, message_type='command') *)
| SendPublic (room msg : str)         (* self.send_public(room, msg) *)
| SendPrivate (user msg : str)        (* self.send_private(user, msg, show_ui=True, switch_page=False) *)
| Urlopen (req : request).            (* urlopen(request, timeout=15), blocking *)

Inductive exn : Type := AttributeError | TypeError | KeyError | IndexError.

Inductive prog (A : Type) : Type :=
| Ret (a : A)
| Raise (e : exn)
| Do (e : effect) (k : prog A)
| Fetch (req : request) (k : response -> prog A)
| GetSelf (k : plugin -> prog A)
| PutSelf (s : plugin) (k : prog A)
| StartThread (worker : prog unit) (k : prog A)        (* Thread(target=worker, daemon=True).start() *)
| InvokeMainThread (callback : prog unit) (k : prog A). (* events.invoke_main_thread(callback) *)

Arguments Ret {A} a.
Arguments Raise {A} e.
Arguments Do {A} e k.
Arguments Fetch {A} req k.
Arguments GetSelf {A} k.
Arguments PutSelf {A} s k.
Arguments StartThread {A} worker k.
Arguments InvokeMainThread {A} callback k.

Fixpoint bind {A B : Type} (p : prog A) (f : A -> prog B) : prog B :=
  match p with
  | Ret a => f a
  | Raise e => Raise e
  | Do e k => Do e (bind k f)
  | Fetch req k => Fetch req (fun r => bind (k r) f)
  | GetSelf k => GetSelf (fun s => bind (k s) f)
  | PutSelf s k => PutSelf s (bind k f)
  | StartThread w k => StartThread w (bind k f)
  | InvokeMainThread cb k => InvokeMainThread cb (bind k f)
  end.

Notation "x <- p ;; k" := (bind p (fun x => k))
  (at level 100, p at next level, right associativity).
Notation "p ;;; k" := (bind p (fun _ => k))
  (at level 100, right associativity).

Definition do (e : effect) : prog unit := Do e (Ret tt).

(** ** Running programs

    An effect is logged with the thread it happens on.  Started threads
    and callbacks posted to the main thread wait in [threads] and
    [main_queue]. *)

Inductive thread : Type := MainThread | WorkerThread.

Record world : Type := {
  self : plugin;
  log : list (thread * effect);
  threads : list (prog unit);
  main_queue : list (prog unit)
}.

Inductive outcome (A : Type) : Type :=
| Returned (a : A)
| Raised (e : exn).

Arguments Returned {A} a.
Arguments Raised {A} e.

Definition logged (t : thread) (e : effect) (w : world) : world :=
  {| self := self w; log := log w ++ [(t, e)];
     threads := threads w; main_queue := main_queue w |}.

Definition with_self (s : plugin) (w : world) : world :=
  {| self := s; log := log w; threads := threads w; main_queue := main_queue w |}.

Definition with_threads (ts : list (prog unit)) (w : world) : world :=
  {| self := self w; log := log w; threads := ts; main_queue := main_queue w |}.

Definition with_main_queue (q : list (prog unit)) (w : world) : world :=
  {| self := self w; log := log w; threads := threads w; main_queue := q |}.

Section Run.
(** The provider: what each request is answered with. *)
Variable net : request -> response.

Fixpoint exec {A : Type} (t : thread) (p : prog A) (w : world) : outcome A * world :=
  match p with
  | Ret a => (Returned a, w)
  | Raise e => (Raised e, w)
  | Do e k => exec t k (logged t e w)
  | Fetch req k => exec t (k (net req)) (logged t (Urlopen req) w)
  | GetSelf k => exec t (k (self w)) w
  | PutSelf s k => exec t k (with_self s w)
  | StartThread wk k => exec t k (with_threads (threads w ++ [wk]) w)
  | InvokeMainThread cb k => exec t k (with_main_queue (main_queue w ++ [cb]) w)
  end.

(** The scheduler: started threads run to their end on a worker, in
    start order; then the main thread takes the callbacks posted to it,
    in posting order.  An exception ends the thread or callback it
    escapes from. *)
Fixpoint drain (fuel : nat) (w : world) : world :=
  match fuel with
  | O => w
  | S fuel' =>
      match threads w with
      | wk :: rest =>
          drain fuel' (snd (exec WorkerThread wk (with_threads rest w)))
      | [] =>
          match main_queue w with
          | cb :: rest =>
              drain fuel' (snd (exec MainThread cb (with_main_queue rest w)))
          | [] => w
          end
      end
  end.

Definition quiescent (w : world) : Prop := threads w = [] /\ main_queue w = [].

Definition boot (s : plugin) : world :=
  {| self := s; log := []; threads := []; main_queue := [] |}.

(** The host calls a handler on the main thread; what the handler
    started then runs. *)
Definition run {A : Type} (fuel : nat) (handler : prog A) (s : plugin)
    : outcome A * world :=
  let '(r, w) := exec MainThread handler (boot s) in (r, drain fuel w).

(** Other schedules: any started thread may run next, on a worker; the
    main thread takes its callbacks in posting order.  [drain] is one
    of these schedules. *)
Inductive sched_step : world -> world -> Prop :=
| step_worker (w : world) (before : list (prog unit)) (wk : prog unit)
    (after : list (prog unit)) :
    threads w = before ++ wk :: after ->
    sched_step w (snd (exec WorkerThread wk (with_threads (before ++ after) w)))
| step_main (w : world) (cb : prog unit) (rest : list (prog unit)) :
    main_queue w = cb :: rest ->
    sched_step w (snd (exec MainThread cb (with_main_queue rest w))).

(** [w'] is reached, under some schedule, after the host has called
    [handler] on the main thread in state [s]. *)
Definition reaches {A : Type} (handler : prog A) (s : plugin) (w' : world) : Prop :=
  rtc sched_step (snd (exec MainThread handler (boot s))) w'.

End Run.

(** ** Operations on values of dynamic type *)

(** [v.get(key, default)]: only a dictionary has [get]. *)
Definition py_get (v : pyval) (key : str) (default : pyval) : prog pyval :=
  match v with
  | PDict d => Ret (from_option id default (lookup_key key d))
  | _ => Raise AttributeError
  end.

(** [key in v] for a string [key]: a key of a dictionary, an element of
    a list, a substring of a string; other values are not iterable. *)
Definition py_in (key : str) (v : pyval) : prog bool :=
  match v with
  | PDict d => Ret (bool_decide (is_Some (lookup_key key d)))
  | PList l => Ret (existsb (fun x => match x with PStr s => str_eqb s key | _ => false end) l)
  | PStr s => Ret (contains key s)
  | _ => Raise TypeError
  end.

(** [v[0]] *)
Definition py_item0 (v : pyval) : prog pyval :=
  match v with
  | PList (x :: _) => Ret x
  | PList [] => Raise IndexError
  | PStr (c :: _) => Ret (PStr [c])
  | PStr [] => Raise IndexError
  | PDict _ => Raise KeyError
  | _ => Raise TypeError
  end.

Section Client.
Context {U : Unicode}.

(** [v.lower()], [v.upper()], [v.strip()]: string methods. *)
Definition py_lower (v : pyval) : prog str :=
  match v with PStr s => Ret (lower s) | _ => Raise AttributeError end.

Definition py_upper (v : pyval) : prog str :=
  match v with PStr s => Ret (upper s) | _ => Raise AttributeError end.

Definition py_strip (v : pyval) : prog str :=
  match v with PStr s => Ret (strip s) | _ => Raise AttributeError end.

(** ** The Translation Client *)

(** The [params] dictionary and the [Request] built from it; [lang] is
    the [target_lang] argument.  The request is that of [encodable]
    values: [urlencode(params)] runs before the [try] and raises on a
    key, text or target language with a surrogate code point. *)
Definition build_request (s : settings_t) (key text : str) (lang : option str)
    : request :=
  let params :=
    [(py "auth_key", key);
     (py "text", text);
     (py "target_lang",
        str_or (from_option id [] lang) (str_or (target_lang s) (py "EN-US")))] in
  {| url := DEEPL_API_URL;
     data := if preserve_formatting s
             then params ++ [(py "preserve_formatting", py "1")]
             else params;
     content_type := py "application/x-www-form-urlencoded";
     timeout := 15 |}.

Definition msg_no_key : str :=
  py "DeepL API key not set. Open Preferences " ++ [arrow] ++ py " Plugins "
  ++ [arrow] ++ py " DeepL Translate to configure.".

(** The test
    ['message' in payload and 'error' in payload.get('message', '').lower()];
    when it holds the result is the message, which the report formats. *)
Definition provider_error (payload : pyval) : prog (option str) :=
  has_message <- py_in (py "message") payload ;;
  if has_message : bool then
    message <- py_get payload (py "message") (PStr []) ;;
    lowered <- py_lower message ;;
    Ret (if contains (py "error") lowered
         then match message with PStr m => Some m | _ => None end
         else None)
  else Ret None.

(** The user-facing client. *)
Definition _translate_via_deepl (text : str) (lang : option str) : prog pyval :=
  GetSelf (fun self =>
  let key := strip (api_key (settings self)) in
  if str_falsy key then
    do (Output msg_no_key) ;;; Ret PNone
  else
    Fetch (build_request (settings self) key text lang) (fun r =>
    match r with
    | Failed error =>
        do (Output (py "DeepL request failed: " ++ error)) ;;; Ret PNone
    | NotJson =>
        do (Output (py "Failed to parse DeepL response")) ;;; Ret PNone
    | Json payload =>
        err <- provider_error payload ;;
        match err with
        | Some message =>
            do (Output (py "DeepL error: " ++ message)) ;;; Ret PNone
        | None =>
            translations <- py_get payload (py "translations") PNone ;;
            if negb (truthy translations) then
              do (Output (py "DeepL returned no translations")) ;;; Ret PNone
            else
              first <- py_item0 translations ;;
              py_get first (py "text") (PStr [])
        end
    end)).

(** The silent client, which also returns the detected language. *)
Definition _translate_and_detect (text : str) (lang : option str)
    : prog (pyval * pyval) :=
  GetSelf (fun self =>
  let key := strip (api_key (settings self)) in
  if str_falsy key then Ret (PNone, PNone)
  else
    Fetch (build_request (settings self) key text lang) (fun r =>
    match r with
    | Failed _ => Ret (PNone, PNone)
    | NotJson => Ret (PNone, PNone)
    | Json payload =>
        translations <- py_get payload (py "translations") PNone ;;
        if negb (truthy translations) then Ret (PNone, PNone)
        else
          first <- py_item0 translations ;;
          translated <- py_get first (py "text") (PStr []) ;;
          detected <- py_get first (py "detected_source_language") PNone ;;
          Ret (translated, detected)
    end)).

(** ** The Async Dispatch Layer

<<
    def _async_translate(self, text, target_lang, on_success, silent=False):
        def worker():
            result = self._translate_and_detect(text, target_lang=target_lang)
            def deliver():
                translated, detected = result
                if translated is None and not silent:
                    return
                on_success((translated, detected))
            events.invoke_main_thread(deliver)
        Thread(target=worker, daemon=True).start()
>> *)

Definition deliver (on_success : pyval * pyval -> prog unit) (silent : bool)
    (result : pyval * pyval) : prog unit :=
  let '(translated, detected) := result in
  if is_none translated && negb silent then Ret tt
  else on_success (translated, detected).

Definition worker (text : str) (lang : option str)
    (on_success : pyval * pyval -> prog unit) (silent : bool) : prog unit :=
  result <- _translate_and_detect text lang ;;
  InvokeMainThread (deliver on_success silent result) (Ret tt).

Definition _async_translate (text : str) (lang : option str)
    (on_success : pyval * pyval -> prog unit) (silent : bool) : prog unit :=
  StartThread (worker text lang on_success silent) (Ret tt).

End Client.

(** ** The shortcut pattern

    The pattern of [re.match] in [_handle_outgoing_shortcut] is
<<
    ^\s*@([A-Za-z][A-Za-z\-_]{1,9})\s*(.* )$
>>
    (without the blank before the last closing parenthesis).

    The pattern is a sequence of anchors, group marks and greedy
    repetitions of one-character classes.  The matcher below is the
    backtracking search of [re] for such sequences: a repetition first
    takes as many characters as it may and gives them back one at a
    time while the rest of the pattern fails. *)

Inductive re_item : Type :=
| Bol                                                (* ^ *)
| Eol                                                (* $ *)
| Open (g : nat)                                     (* ( *)
| Close (g : nat)                                    (* ) *)
| Rep (cls : char -> bool) (lo : nat) (hi : option nat).  (* cls{lo,hi} *)

(** The number of leading characters of [s] in [cls]. *)
Fixpoint run_length (cls : char -> bool) (s : str) : nat :=
  match s with
  | c :: s' => if cls c then S (run_length cls s') else O
  | [] => O
  end.

(** The first success of [f n], [f (n-1)], ..., [f lo]. *)
Fixpoint try_down {R : Type} (f : nat -> option R) (lo n : nat) : option R :=
  if (n <? lo)%nat then None
  else match f n with
       | Some r => Some r
       | None => match n with
                 | O => None
                 | S n' => try_down f lo n'
                 end
       end.

(** [$]: the end of the string, or just before a newline that ends it. *)
Definition at_eol (s : str) : bool :=
  match s with
  | [] => true
  | [c] => N.eqb c newline
  | _ => false
  end.

(** A mark remembers what was left of the subject when a group opened
    ([true]) or closed ([false]). *)
Fixpoint rmatch (items : list re_item) (pos : nat) (s : str)
    (marks : list (bool * nat * str)) : option (list (bool * nat * str)) :=
  match items with
  | [] => Some marks
  | Bol :: items' => if (pos =? 0)%nat then rmatch items' pos s marks else None
  | Eol :: items' => if at_eol s then rmatch items' pos s marks else None
  | Open g :: items' => rmatch items' pos s ((true, g, s) :: marks)
  | Close g :: items' => rmatch items' pos s ((false, g, s) :: marks)
  | Rep cls lo hi :: items' =>
      let avail := run_length cls s in
      let top := match hi with Some h => Nat.min h avail | None => avail end in
      try_down (fun n => rmatch items' (pos + n) (drop n s) marks) lo top
  end.

Fixpoint mark (opening : bool) (g : nat) (marks : list (bool * nat * str))
    : option str :=
  match marks with
  | [] => None
  | (o, g', s) :: marks' =>
      if Bool.eqb o opening && (g' =? g)%nat then Some s else mark opening g marks'
  end.

(** [match.group(g)] *)
Definition group (g : nat) (marks : list (bool * nat * str)) : option str :=
  match mark true g marks, mark false g marks with
  | Some from, Some to => Some (take (length from - length to) from)
  | _, _ => None
  end.

Definition at_sign : char := 64.
Definition lang_class (c : char) : bool :=
  ascii_isalpha c || (N.eqb c hyphen || N.eqb c underscore).
Definition not_newline (c : char) : bool := negb (N.eqb c newline).

Inductive returncode : Type := rc_break | rc_zap | rc_pass.

Section Handlers.
Context {U : Unicode}.

Definition shortcut_re : list re_item :=
  [Bol; Rep isspace 0 None; Rep (N.eqb at_sign) 1 (Some 1%nat);
   Open 1; Rep ascii_isalpha 1 (Some 1%nat); Rep lang_class 1 (Some 9%nat); Close 1;
   Rep isspace 0 None;
   Open 2; Rep not_newline 0 None; Close 2; Eol].

(** [(match.group(1), match.group(2))] when the line matches. *)
Definition shortcut_match (line : str) : option (str * str) :=
  match rmatch shortcut_re 0 line [] with
  | Some marks =>
      match group 1 marks, group 2 marks with
      | Some g1, Some g2 => Some (g1, g2)
      | _, _ => None
      end
  | None => None
  end.

(** ** Outgoing lines: the inline shortcut

    [context] is [('chatroom', room)] or [('private', user)]. *)
Definition _handle_outgoing_shortcut (line : str) (context : str * str)
    : prog bool :=
  match shortcut_match line with
  | None => Ret false
  | Some (target, g2) =>
      let rest := strip g2 in
      if negb (_looks_like_lang target) then Ret false
      else if negb (str_falsy rest) then
        let on_success (result : pyval * pyval) : prog unit :=
          let '(translated, _detected) := result in
          if negb (truthy translated) then Ret tt
          else
            stripped <- py_strip translated ;;
            let translated := _strip_wrapping_quotes stripped in
            if str_eqb (fst context) (py "chatroom")
            then do (SendPublic (snd context) translated)
            else do (SendPrivate (snd context) translated) in
        _async_translate rest (Some target) on_success false ;;;
        Ret true
      else if str_eqb (fst context) (py "chatroom") then
        GetSelf (fun self =>
        match _last_public_message self !! snd context with
        | None =>
            do (Output (py "No recent message to translate")) ;;; Ret true
        | Some (last_user, last_text) =>
            let on_success (result : pyval * pyval) : prog unit :=
              let '(translated, _detected) := result in
              if negb (truthy translated) then Ret tt
              else
                stripped <- py_strip translated ;;
                let translated := _strip_wrapping_quotes stripped in
                let label := py "[" ++ target ++ py "] " ++ last_user ++ py ": " in
                do (EchoPublic (snd context) (label ++ translated)) in
            _async_translate last_text (Some target) on_success false ;;;
            Ret true
        end)
      else
        GetSelf (fun self =>
        match _last_private_message self !! snd context with
        | None =>
            do (Output (py "No recent message to translate")) ;;; Ret true
        | Some (last_user, last_text) =>
            let on_success (result : pyval * pyval) : prog unit :=
              let '(translated, _detected) := result in
              if negb (truthy translated) then Ret tt
              else
                stripped <- py_strip translated ;;
                let translated := _strip_wrapping_quotes stripped in
                let label := py "[" ++ target ++ py "] " ++ last_user ++ py ": " in
                do (EchoPrivate (snd context) (label ++ translated)) in
            _async_translate last_text (Some target) on_success false ;;;
            Ret true
        end)
  end.

(** The host sends the line unless the handler returns
    [returncode['zap']]. *)
Definition outgoing_public_chat_event (room line : str) : prog (option returncode) :=
  handled <- _handle_outgoing_shortcut line (py "chatroom", room) ;;
  if handled : bool then Ret (Some rc_zap) else Ret None.

Definition outgoing_private_chat_event (user line : str) : prog (option returncode) :=
  handled <- _handle_outgoing_shortcut line (py "private", user) ;;
  if handled : bool then Ret (Some rc_zap) else Ret None.

(** ** Incoming lines: Conversation Memory and the Auto-translate Notifier *)

(** [user != self.core.users.login_username] *)
Definition is_other (user : str) (self : plugin) : bool :=
  negb (bool_decide (Some user = login_username self)).

(** The callback of both notifiers, up to the echo they end with. *)
Definition incoming_public_chat_notification (room user line : str) : prog unit :=
  GetSelf (fun self =>
  (if is_other user self
   then PutSelf (set_last_public <[room := (user, line)]> self) (Ret tt)
   else Ret tt) ;;;
  GetSelf (fun self =>
  if negb (auto_translate_incoming (settings self)) then Ret tt
  else if negb (is_other user self) then Ret tt
  else
    let target := str_or (auto_incoming_target_lang (settings self)) (py "EN-GB") in
    let on_success (result : pyval * pyval) : prog unit :=
      let '(translated, detected) := result in
      if negb (truthy translated) then Ret tt
      else
        english <- (if truthy detected
                    then up <- py_upper detected ;; Ret (startswith up (py "EN"))
                    else Ret false) ;;
        same <- (if english : bool then Ret true
                 else stripped <- py_strip translated ;;
                      Ret (str_eqb stripped (strip line))) ;;
        if same : bool then Ret tt
        else
          up <- py_upper (if truthy detected then detected else PStr (py "?")) ;;
          let label := py "[" ++ up ++ [arrow] ++ target ++ py "] " ++ user ++ py ": " in
          match translated with
          | PStr translated => do (EchoPublic room (label ++ translated))
          | _ => Raise TypeError
          end in
    _async_translate line (Some target) on_success true)).

Definition incoming_private_chat_notification (user line : str) : prog unit :=
  GetSelf (fun self =>
  (if is_other user self
   then PutSelf (set_last_private <[user := (user, line)]> self) (Ret tt)
   else Ret tt) ;;;
  GetSelf (fun self =>
  if negb (auto_translate_incoming (settings self)) then Ret tt
  else if negb (is_other user self) then Ret tt
  else
    let target := str_or (auto_incoming_target_lang (settings self)) (py "EN-GB") in
    let on_success (result : pyval * pyval) : prog unit :=
      let '(translated, detected) := result in
      if negb (truthy translated) then Ret tt
      else
        english <- (if truthy detected
                    then up <- py_upper detected ;; Ret (startswith up (py "EN"))
                    else Ret false) ;;
        same <- (if english : bool then Ret true
                 else stripped <- py_strip translated ;;
                      Ret (str_eqb stripped (strip line))) ;;
        if same : bool then Ret tt
        else
          up <- py_upper (if truthy detected then detected else PStr (py "?")) ;;
          let label := py "[" ++ up ++ [arrow] ++ target ++ py "] " ++ user ++ py ": " in
          match translated with
          | PStr translated => do (EchoPrivate user (label ++ translated))
          | _ => Raise TypeError
          end in
    _async_translate line (Some target) on_success true)).

End Handlers.

(** ** [shlex.split]

    The standard library's tokenizer as [shlex.split(args)] sets it up:
    POSIX rules, tokens split at whitespace only, no comment characters.
    [None] stands for the [ValueError] of an unclosed quotation or a
    trailing escape.  [tok] is the token being read, reversed; [quoted]
    tells whether a quotation has contributed to it. *)

Inductive shlex_state : Type :=
| InBlank
| InWord
| InQuote (q : char)
| InEscape (back : option char).

Definition backslash : char := 92.
Definition shlex_whitespace (c : char) : bool :=
  N.eqb c 32 || N.eqb c 9 || N.eqb c 13 || N.eqb c 10.
Definition shlex_quote (c : char) : bool := N.eqb c squote || N.eqb c dquote.

Fixpoint shlex_scan (st : shlex_state) (tok : str) (quoted : bool) (s : str)
    : option (list str) :=
  match s with
  | [] =>
      match st with
      | InBlank => Some []
      | InWord => if negb (str_falsy tok) || quoted then Some [rev tok] else Some []
      | InQuote _ | InEscape _ => None
      end
  | c :: s' =>
      match st with
      | InBlank =>
          if shlex_whitespace c then shlex_scan InBlank [] false s'
          else if N.eqb c backslash then shlex_scan (InEscape None) [] false s'
          else if shlex_quote c then shlex_scan (InQuote c) [] false s'
          else shlex_scan InWord [c] false s'
      | InWord =>
          if shlex_whitespace c then
            if negb (str_falsy tok) || quoted
            then cons (rev tok) <$> shlex_scan InBlank [] false s'
            else shlex_scan InBlank [] false s'
          else if shlex_quote c then shlex_scan (InQuote c) tok quoted s'
          else if N.eqb c backslash then shlex_scan (InEscape None) tok quoted s'
          else shlex_scan InWord (c :: tok) quoted s'
      | InQuote q =>
          if N.eqb c q then shlex_scan InWord tok true s'
          else if N.eqb q dquote && N.eqb c backslash
               then shlex_scan (InEscape (Some q)) tok true s'
               else shlex_scan (InQuote q) (c :: tok) true s'
      | InEscape None => shlex_scan InWord (c :: tok) quoted s'
      | InEscape (Some q) =>
          if negb (N.eqb c backslash) && negb (N.eqb c q)
          then shlex_scan (InQuote q) (c :: backslash :: tok) quoted s'
          else shlex_scan (InQuote q) (c :: tok) quoted s'
      end
  end.

Definition shlex_split (s : str) : option (list str) := shlex_scan InBlank [] false s.

Section Commands.
Context {U : Unicode}.

(** ** The explicit commands *)

Definition version_command (_args : str) (user room : option str) : prog bool :=
  do (Output (py "DeepL Translate v" ++ PLUGIN_VERSION)) ;;; Ret true.

Definition help_lines (s : settings_t) : list str :=
  let auto_on := if auto_translate_incoming s then py "on" else py "off" in
  [ py "DeepL Translate v" ++ PLUGIN_VERSION;
    [];
    py "Outgoing default target: " ++ target_lang s;
    py "Incoming auto-translate: " ++ auto_on ++ py " " ++ [arrow] ++ py " "
      ++ auto_incoming_target_lang s;
    [];
    py "Usage:";
    py "  /tr [TARGET_LANG] <text..>         send translation";
    py "  /tr [TARGET_LANG]                  translate latest msg (local-only)";
    py "  @LANG text                         inline shortcut; sends translation";
    py "  @LANG                              translate latest msg (local-only)";
    [];
    py "Utilities:";
    py "  /tri <TARGET_LANG>                 set incoming auto target";
    py "  /trver                              show version";
    py "  /tr help                            this help";
    [];
    py "Examples:";
    py "  /tr FR how are you";
    py "  /tr " ++ [dquote] ++ py "DE" ++ [dquote] ++ py " " ++ [dquote]
      ++ py "how are you" ++ [dquote];
    py "  @ES buenos dias";
    py "  @EN-GB" ].

Definition translate_help_command (_args : str) (user room : option str)
    : prog bool :=
  GetSelf (fun self =>
  do (Output (join [newline] (help_lines (settings self)))) ;;; Ret true).

Definition one_of (s : str) (choices : list str) : bool :=
  existsb (str_eqb s) choices.

Definition translate_command (args : str) (user room : option str) : prog bool :=
  let lowered := lower (strip args) in
  if one_of lowered [py "version"; py "-v"; py "--version"] then
    version_command [] user room
  else if one_of lowered [py "help"; py "-h"; py "--help"; py "?"] then
    translate_help_command [] user room
  else
    let tokens := match shlex_split args with
                  | Some tokens => tokens
                  | None => split args
                  end in
    match tokens with
    | [] =>
        do (Output (py "Usage: /translate [TARGET_LANG] <text..>")) ;;; Ret false
    | first :: others =>
        let first_clean := _strip_wrapping_quotes first in
        let '(lang, text) :=
          if _looks_like_lang first_clean
          then (Some first_clean, join (py " ") others)
          else (None, join (py " ") tokens) in
        if str_falsy (strip text) then
          match room, user with
          | Some room, _ =>
              GetSelf (fun self =>
              match _last_public_message self !! room with
              | None =>
                  do (Output (py "No recent message to translate")) ;;; Ret false
              | Some (_last_user, last_text) =>
                  translated <- _translate_via_deepl last_text lang ;;
                  if is_none translated then Ret false
                  else
                    stripped <- py_strip translated ;;
                    do (EchoPublic room (_strip_wrapping_quotes stripped)) ;;;
                    Ret true
              end)
          | None, Some user =>
              GetSelf (fun self =>
              match _last_private_message self !! user with
              | None =>
                  do (Output (py "No recent message to translate")) ;;; Ret false
              | Some (_last_user, last_text) =>
                  translated <- _translate_via_deepl last_text lang ;;
                  if is_none translated then Ret false
                  else
                    stripped <- py_strip translated ;;
                    do (EchoPrivate user (_strip_wrapping_quotes stripped)) ;;;
                    Ret true
              end)
          | None, None =>
              do (Output (py "Nothing to translate")) ;;; Ret false
          end
        else
          translated <- _translate_via_deepl text lang ;;
          if is_none translated then Ret false
          else
            stripped <- py_strip translated ;;
            let translated := _strip_wrapping_quotes stripped in
            match room, user with
            | Some room, _ => do (SendPublic room translated)
            | None, Some user => do (SendPrivate user translated)
            | None, None => do (Output translated)
            end ;;;
            Ret true
    end.

(** The command that sets the incoming target language.  It also
    writes the plugin's section of the host configuration,
    [self.config.sections['plugins'][self.internal_name.lower()]]; that
    dictionary is passed in and handed back with the result.

<<
    def set_incoming_lang_command(self, args, user=None, room=None):
        lang = args.strip().strip(QUOTES)        # QUOTES: the two quote characters
        if not self._looks_like_lang(lang):
            self.output('Invalid target language. Example: EN-GB, EN-US, DE, ES')
            return False
        self.settings['auto_incoming_target_lang'] = lang
        self.config.sections['plugins'][...]['auto_incoming_target_lang'] = lang
        self.output(f'Incoming auto-translate target set to {lang}')
        return True
>> *)
Definition set_incoming_lang_command (args : str) (user room : option str)
    (section : gmap str pyval) : prog (bool * gmap str pyval) :=
  let lang := strip_chars [dquote; squote] (strip args) in
  if negb (_looks_like_lang lang) then
    do (Output (py "Invalid target language. Example: EN-GB, EN-US, DE, ES")) ;;;
    Ret (false, section)
  else
    GetSelf (fun self =>
    PutSelf
      {| settings :=
           {| api_key := api_key (settings self);
              target_lang := target_lang (settings self);
              preserve_formatting := preserve_formatting (settings self);
              auto_translate_incoming := auto_translate_incoming (settings self);
              auto_incoming_target_lang := lang |};
         _last_public_message := _last_public_message self;
         _last_private_message := _last_private_message self;
         login_username := login_username self |}
      (do (Output (py "Incoming auto-translate target set to " ++ lang)) ;;;
       Ret (true, <[py "auto_incoming_target_lang" := PStr lang]> section))).

End Commands.

(** * The vocabulary of the properties

    Names for what the statements below talk about: sample states and
    provider answers, the completion callbacks of the handlers, and the
    predicates on programs and worlds. *)

Section Vocabulary.
Context {U : Unicode}.
Variable net : request -> response.

(** [wrapped s]: at least two characters, the first and the last the
    same quote character. *)
Definition wrapped (s : str) : bool :=
  (2 <=? length s)%nat &&
  ((startswith s [dquote] && endswith s [dquote])
   || (startswith s [squote] && endswith s [squote])).

(** The settings [__init__] installs, and a plugin that has been given
    an API key and whose user is logged in. *)
Definition default_settings : settings_t :=
  {| api_key := [];
     target_lang := py "DE";
     preserve_formatting := true;
     auto_translate_incoming := true;
     auto_incoming_target_lang := py "EN-GB" |}.

Definition fresh_plugin : plugin :=
  {| settings := default_settings;
     _last_public_message := ∅;
     _last_private_message := ∅;
     login_username := None |}.

Definition configured_plugin : plugin :=
  {| settings :=
       {| api_key := py "secret";
          target_lang := py "DE";
          preserve_formatting := true;
          auto_translate_incoming := true;
          auto_incoming_target_lang := py "EN-GB" |};
     _last_public_message := ∅;
     _last_private_message := ∅;
     login_username := Some (py "me") |}.

(** A program that is a bare result or a bare exception. *)
Definition leaf {A : Type} (p : prog A) : Prop :=
  match p with
  | Ret _ | Raise _ => True
  | _ => False
  end.

(** What the silent client does with a parsed payload. *)
Definition pick_translation (payload : pyval) : prog (pyval * pyval) :=
  translations <- py_get payload (py "translations") PNone ;;
  if negb (truthy translations) then Ret (PNone, PNone)
  else
    first <- py_item0 translations ;;
    translated <- py_get first (py "text") (PStr []) ;;
    detected <- py_get first (py "detected_source_language") PNone ;;
    Ret (translated, detected).

(** The key the clients use, and the request they send for it. *)
Definition key_of (s : plugin) : str := strip (api_key (settings s)).

Definition request_of (s : plugin) (text : str) (lang : option str) : request :=
  build_request (settings s) (key_of s) text lang.

(** The result of the silent client in state [s]. *)
Definition detect_result (s : plugin) (text : str) (lang : option str)
    : outcome (pyval * pyval) :=
  fst (exec net WorkerThread (_translate_and_detect text lang) (boot s)).

(** [o.get(key, default)] on the items of a dictionary. *)
Definition field (key : str) (default : pyval) (o : list (str * pyval)) : pyval :=
  from_option id default (lookup_key key o).

(** The payload has a [message] that contains [error], in any case. *)
Definition error_signalled (d : list (str * pyval)) : bool :=
  match lookup_key (py "message") d with
  | Some (PStr m) => contains (py "error") (lower m)
  | _ => false
  end.

(** The [message] of the payload, if there is one, is a string. *)
Definition message_is_text (d : list (str * pyval)) : Prop :=
  match lookup_key (py "message") d with
  | None | Some (PStr _) => True
  | Some _ => False
  end.

(** The payload of the provider's documentation: one translation. *)
Definition hallo_translation : list (str * pyval) :=
  [(py "text", PStr (py "Hallo")); (py "detected_source_language", PStr (py "EN"))].

Definition hallo_payload : list (str * pyval) :=
  [(py "translations", PList [PDict hallo_translation])].

(** A payload with both a provider error and a translation. *)
Definition error_and_translation : list (str * pyval) :=
  (py "message", PStr (py "Quota error")) :: hallo_payload.

(** The world a worker leaves behind for a request made in state [s]:
    the network call, if the key allowed one, and nothing else. *)
Definition after_request (s : plugin) (text : str) (lang : option str) : world :=
  if str_falsy (key_of s) then boot s
  else logged WorkerThread (Urlopen (request_of s text lang)) (boot s).

(** The provider answered with an explicit null [text] in the first
    translation, and [detected] is what it sent along. *)
Definition null_text (r : response) (detected : pyval) : Prop :=
  exists d o more,
    r = Json (PDict d)
    /\ lookup_key (py "translations") d = Some (PList (PDict o :: more))
    /\ lookup_key (py "text") o = Some PNone
    /\ detected = field (py "detected_source_language") PNone o.

(** A provider answer whose first translation has an explicit null
    text and a detected language. *)
Definition null_text_payload : pyval :=
  PDict [(py "translations",
          PList [PDict [(py "text", PNone);
                        (py "detected_source_language", PStr (py "EN"))]])].

(** A completion callback that prints the language it is handed with an
    absent text. *)
Definition print_language (result : pyval * pyval) : prog unit :=
  match result with
  | (PNone, PStr language) => do (Output language)
  | _ => Ret tt
  end.

(** An entry of the log is in its place when a network call is on a
    worker thread and every other effect, which touches the chat UI, is
    on the main thread. *)
Definition placed (entry : thread * effect) : Prop :=
  match entry with
  | (t, Urlopen _) => t = WorkerThread
  | (t, _) => t = MainThread
  end.

Definition touches_ui (e : effect) : bool :=
  match e with Urlopen _ => false | _ => true end.

(** [confined t p]: run on thread [t], the program [p] and everything
    it starts or posts make network calls on workers only and touch the
    UI on the main thread only. *)
Fixpoint confined {A : Type} (t : thread) (p : prog A) : Prop :=
  match p with
  | Ret _ | Raise _ => True
  | Do e k => t = MainThread /\ touches_ui e = true /\ confined t k
  | Fetch _ k => t = WorkerThread /\ forall r, confined t (k r)
  | GetSelf k => forall s, confined t (k s)
  | PutSelf _ k => confined t k
  | StartThread wk k => confined WorkerThread wk /\ confined t k
  | InvokeMainThread cb k => confined MainThread cb /\ confined t k
  end.

Definition world_confined (w : world) : Prop :=
  Forall placed (log w)
  /\ Forall (confined WorkerThread) (threads w)
  /\ Forall (confined MainThread) (main_queue w).

(** [keeps_self p]: neither [p] nor what it starts or posts assigns to
    an attribute of the plugin. *)
Fixpoint keeps_self {A : Type} (p : prog A) : Prop :=
  match p with
  | Ret _ | Raise _ => True
  | Do _ k => keeps_self k
  | Fetch _ k => forall r, keeps_self (k r)
  | GetSelf k => forall s, keeps_self (k s)
  | PutSelf _ _ => False
  | StartThread wk k => keeps_self wk /\ keeps_self k
  | InvokeMainThread cb k => keeps_self cb /\ keeps_self k
  end.

Definition pending_keep_self (w : world) : Prop :=
  Forall keeps_self (threads w) /\ Forall keeps_self (main_queue w).

(** The two kinds of conversation, public ([true]) and private. *)
Definition chat (public : bool) (name : str) : str * str :=
  if public then (py "chatroom", name) else (py "private", name).

Definition send (public : bool) (name msg : str) : effect :=
  if public then SendPublic name msg else SendPrivate name msg.

Definition echo (public : bool) (name msg : str) : effect :=
  if public then EchoPublic name msg else EchoPrivate name msg.

Definition remembered (public : bool) (name : str) (s : plugin) : option (str * str) :=
  if public then _last_public_message s !! name else _last_private_message s !! name.

(** [text] when it is a non-empty string. *)
Definition nonempty_text (v : pyval) : option str :=
  match v with
  | PStr (c :: s) => Some (c :: s)
  | _ => None
  end.

Definition outgoing_chat_event (public : bool) (name line : str)
    : prog (option returncode) :=
  if public then outgoing_public_chat_event name line
  else outgoing_private_chat_event name line.

(** The completion callbacks of [_handle_outgoing_shortcut]. *)
Definition send_translation (context : str * str) (result : pyval * pyval)
    : prog unit :=
  let '(translated, _detected) := result in
  if negb (truthy translated) then Ret tt
  else
    stripped <- py_strip translated ;;
    let translated := _strip_wrapping_quotes stripped in
    if str_eqb (fst context) (py "chatroom")
    then do (SendPublic (snd context) translated)
    else do (SendPrivate (snd context) translated).

Definition echo_translation (public : bool) (name target last_user : str)
    (result : pyval * pyval) : prog unit :=
  let '(translated, _detected) := result in
  if negb (truthy translated) then Ret tt
  else
    stripped <- py_strip translated ;;
    let translated := _strip_wrapping_quotes stripped in
    let label := py "[" ++ target ++ py "] " ++ last_user ++ py ": " in
    do (echo public name (label ++ translated)).

(** The completion callback of the two notifiers; [name] is the room
    for a public line and the sender for a private one. *)
Definition notify (public : bool) (name target user line : str)
    (result : pyval * pyval) : prog unit :=
  let '(translated, detected) := result in
  if negb (truthy translated) then Ret tt
  else
    english <- (if truthy detected
                then up <- py_upper detected ;; Ret (startswith up (py "EN"))
                else Ret false) ;;
    same <- (if english : bool then Ret true
             else stripped <- py_strip translated ;;
                  Ret (str_eqb stripped (strip line))) ;;
    if same : bool then Ret tt
    else
      up <- py_upper (if truthy detected then detected else PStr (py "?")) ;;
      let label := py "[" ++ up ++ [arrow] ++ target ++ py "] " ++ user ++ py ": " in
      match translated with
      | PStr translated => do (echo public name (label ++ translated))
      | _ => Raise TypeError
      end.

(** The detected language starts with EN, in any case. *)
Definition from_english (detected : pyval) : bool :=
  match nonempty_text detected with
  | Some d => startswith (upper d) (py "EN")
  | None => false
  end.

(** The translation adds nothing. *)
Definition suppressed (detected : pyval) (translated line : str) : bool :=
  from_english detected || str_eqb (strip translated) (strip line).

(** The label of a notice: the detected code in upper case, or the
    placeholder [?] when no language was detected. *)
Definition notice_label (detected : pyval) (target user : str) : str :=
  py "[" ++ match nonempty_text detected with
            | Some d => upper d
            | None => py "?"
            end
  ++ [arrow] ++ target ++ py "] " ++ user ++ py ": ".

Definition incoming_target (s : plugin) : str :=
  str_or (auto_incoming_target_lang (settings s)) (py "EN-GB").

(** A provider answer that translates into Spanish-detected text. *)
Definition hola_payload (text : str) : pyval :=
  PDict [(py "translations",
          PList [PDict [(py "text", PStr text);
                        (py "detected_source_language", PStr (py "ES"))]])].

Definition bob_in_room : plugin :=
  set_last_public <[py "room" := (py "bob", py "hola")]> configured_plugin.

(** [sequential p]: [p] starts no thread, posts no callback and assigns
    to no attribute of the plugin. *)
Fixpoint sequential {A : Type} (p : prog A) : Prop :=
  match p with
  | Ret _ | Raise _ => True
  | Do _ k => sequential k
  | Fetch _ k => forall r, sequential (k r)
  | GetSelf k => forall s, sequential (k s)
  | PutSelf _ _ => False
  | StartThread _ _ => False
  | InvokeMainThread _ _ => False
  end.

(** The value of a field of the request's form data. *)
Fixpoint assoc_str (key : str) (items : list (str * str)) : option str :=
  match items with
  | [] => None
  | (k, v) :: items' => if str_eqb k key then Some v else assoc_str key items'
  end.

Definition param (key : str) (r : request) : option str := assoc_str key (data r).

(** The tokens [translate_command] works on. *)
Definition command_tokens (args : str) : list str :=
  match shlex_split args with
  | Some tokens => tokens
  | None => split args
  end.

(** The sub-command names [translate_command] looks for first. *)
Definition is_subcommand (args : str) : bool :=
  one_of (lower (strip args)) [py "version"; py "-v"; py "--version"]
  || one_of (lower (strip args)) [py "help"; py "-h"; py "--help"; py "?"].

Definition is_network_call (entry : thread * effect) : bool :=
  match entry with
  | (_, Urlopen _) => true
  | _ => false
  end.

(** Where a translation goes when the command was given a text. *)
Definition deliver_to (user room : option str) (msg : str) : effect :=
  match room, user with
  | Some room, _ => SendPublic room msg
  | None, Some user => SendPrivate user msg
  | None, None => Output msg
  end.

(** How [translate_command] reads its tokens: a first token that looks
    like a language code once its wrapping quotes are removed is the
    target and the other tokens are the text; otherwise there is no
    explicit target and all tokens are the text. *)
Definition command_lang (first : str) : option str :=
  if _looks_like_lang (_strip_wrapping_quotes first)
  then Some (_strip_wrapping_quotes first) else None.

Definition command_text (first : str) (others : list str) : str :=
  if _looks_like_lang (_strip_wrapping_quotes first)
  then join (py " ") others else join (py " ") (first :: others).

(** The provider answers request [r] with a well-formed success whose
    first translation has the text [out]. *)
Definition answers_with (r : request) (out : str) : Prop :=
  exists d o more,
    net r = Json (PDict d)
    /\ message_is_text d
    /\ error_signalled d = false
    /\ lookup_key (py "translations") d = Some (PList (PDict o :: more))
    /\ field (py "text") (PStr []) o = PStr out.

(** [says_at_most k p]: [p] makes no network call, starts nothing,
    assigns nothing, and performs at most [k] effects on the UI. *)
Fixpoint says_at_most {A : Type} (k : nat) (p : prog A) : Prop :=
  match p with
  | Ret _ | Raise _ => True
  | Do e p' =>
      touches_ui e = true
      /\ match k with O => False | S k' => says_at_most k' p' end
  | GetSelf f => forall s, says_at_most k (f s)
  | _ => False
  end.

(** [w] with more entries in its log. *)
Definition extend (w : world) (entries : list (thread * effect)) : world :=
  {| self := self w; log := log w ++ entries;
     threads := threads w; main_queue := main_queue w |}.

(** Nothing is pending, and the log holds at most one network call and
    at most one effect on the UI. *)
Definition settled_after_one (w : world) : Prop :=
  threads w = [] /\ main_queue w = []
  /\ (length (List.filter is_network_call (log w)) <= 1)%nat
  /\ (length (List.filter (fun entry => negb (is_network_call entry)) (log w)) <= 1)%nat.

End Vocabulary.

(** * Properties *)

(** ** Strings *)

Lemma startswith_one (s : str) (q : char) :
  startswith s [q] = match s with c :: _ => N.eqb q c | [] => false end.
Proof. destruct s as [|c [|d s]]; simpl; rewrite ?andb_true_r; reflexivity. Qed.

Lemma length_slice_1_m1 (s : str) : length (slice_1_m1 s) = (length s - 2)%nat.
Proof.
  unfold slice_1_m1. destruct s as [|c s]; [reflexivity|]. simpl.
  induction s as [|d s IH] using rev_ind; [reflexivity|].
  rewrite removelast_last, length_app. simpl. lia.
Qed.

Lemma strip_wrapping_quotes_unfold (s : str) :
  _strip_wrapping_quotes s = if wrapped s then slice_1_m1 s else s.
Proof.
  unfold _strip_wrapping_quotes, wrapped, quote_pairs, strip_loop.
  destruct (2 <=? length s)%nat; [|reflexivity]. simpl.
  destruct (startswith s [dquote] && endswith s [dquote]); [reflexivity|].
  simpl. now destruct (startswith s [squote] && endswith s [squote]).
Qed.

Lemma wrapped_length (s : str) : wrapped s = true -> (2 <= length s)%nat.
Proof.
  unfold wrapped. intros H. apply andb_true_iff in H as [H _].
  now apply Nat.leb_le in H.
Qed.

Section StringFacts.
Context {U : Unicode}.

Lemma lang_char_spec (c : char) :
  lang_char c = true <-> isalpha c = true \/ c = hyphen \/ c = underscore.
Proof.
  unfold lang_char. rewrite !orb_true_iff, !N.eqb_eq. tauto.
Qed.

Lemma looks_like_lang_true (s : str) :
  _looks_like_lang s = true <->
  (1 <= length s <= 10)%nat /\ forallb lang_char s = true.
Proof.
  unfold _looks_like_lang. destruct s as [|c s]; simpl.
  - split; [discriminate|]. intros [[H _] _]. inversion H.
  - change (str_falsy (c :: s)) with false. cbn [orb].
    change (S (length s)) with (length (c :: s)).
    destruct (10 <? length (c :: s))%nat eqn:E.
    + apply Nat.ltb_lt in E. split; [discriminate|]. intros [Hl _]. lia.
    + apply Nat.ltb_ge in E. cbn [length] in *. split.
      * intros H. split; [lia|exact H].
      * intros [_ H]. exact H.
Qed.

(** C3.  The Language-Token Validator returns true exactly for the
    strings of 1 to 10 characters each of which is alphabetic
    ([str.isalpha]), a hyphen or an underscore; so it returns false for
    the empty string, for every string of more than 10 characters and
    for every string with a character of another kind. *)
Theorem looks_like_lang_iff (s : str) :
  (_looks_like_lang s = true <->
     (1 <= length s <= 10)%nat /\
     Forall (fun c => isalpha c = true \/ c = hyphen \/ c = underscore) s)
  /\ _looks_like_lang [] = false
  /\ ((10 < length s)%nat -> _looks_like_lang s = false)
  /\ (forall c, In c s -> isalpha c = false -> c <> hyphen -> c <> underscore ->
      _looks_like_lang s = false).
Proof.
  assert (Hall : forallb lang_char s = true <->
                 Forall (fun c => isalpha c = true \/ c = hyphen \/ c = underscore) s).
  { rewrite forallb_forall, List.Forall_forall.
    split; intros H c Hc; apply lang_char_spec, H, Hc. }
  split; [|split; [|split]].
  - rewrite looks_like_lang_true. now rewrite Hall.
  - reflexivity.
  - intros Hlen. apply not_true_is_false. rewrite looks_like_lang_true. lia.
  - intros c Hin Halpha Hh Hu. apply not_true_is_false.
    rewrite looks_like_lang_true, forallb_forall. intros [_ H].
    apply H, lang_char_spec in Hin. rewrite Halpha in Hin.
    destruct Hin as [Hin|[Hin|Hin]]; [discriminate|contradiction|contradiction].
Qed.

End StringFacts.

(** C4, as stated, fails: a string wrapped twice loses one layer at
    each normalization.  Here the string is the letter a between two
    double quotes on each side. *)
Lemma strip_wrapping_quotes_twice_differs :
  _strip_wrapping_quotes
    (_strip_wrapping_quotes ([dquote; dquote] ++ py "a" ++ [dquote; dquote]))
  <> _strip_wrapping_quotes ([dquote; dquote] ++ py "a" ++ [dquote; dquote]).
Proof. vm_compute. discriminate. Qed.

(** C4, amended.  The Quote Normalizer removes exactly one layer of
    matching wrapping quotes: the result is [text[1:-1]] for a wrapped
    string and the string itself otherwise.  Normalizing twice equals
    normalizing once exactly when the once-normalized string is not
    itself wrapped.  hello between matching double or single quotes
    yields hello, and it's comes back unchanged. *)
Theorem strip_wrapping_quotes_one_layer (s : str) :
  _strip_wrapping_quotes s = (if wrapped s then slice_1_m1 s else s)
  /\ (_strip_wrapping_quotes (_strip_wrapping_quotes s) = _strip_wrapping_quotes s
      <-> wrapped (_strip_wrapping_quotes s) = false)
  /\ _strip_wrapping_quotes ([dquote] ++ py "hello" ++ [dquote]) = py "hello"
  /\ _strip_wrapping_quotes ([squote] ++ py "hello" ++ [squote]) = py "hello"
  /\ _strip_wrapping_quotes (py "it's") = py "it's".
Proof.
  split; [apply strip_wrapping_quotes_unfold|].
  split; [|repeat split; reflexivity].
  set (t := _strip_wrapping_quotes s).
  rewrite (strip_wrapping_quotes_unfold t).
  destruct (wrapped t) eqn:Hw.
  - split; [|discriminate]. intros H. exfalso.
    apply wrapped_length in Hw.
    apply (f_equal (@length N)) in H. rewrite length_slice_1_m1 in H. lia.
  - split; reflexivity.
Qed.

(** ** Running the clients *)

Lemma leaf_bind {A B : Type} (p : prog A) (f : A -> prog B) :
  leaf p -> (forall a, leaf (f a)) -> leaf (bind p f).
Proof. destruct p; simpl; try contradiction; auto. Qed.

Lemma leaf_py_get v key default : leaf (py_get v key default).
Proof. destruct v; exact I. Qed.

Lemma leaf_py_in key v : leaf (py_in key v).
Proof. destruct v; exact I. Qed.

Lemma leaf_py_item0 v : leaf (py_item0 v).
Proof. destruct v as [| | | |[|]|[|]|]; exact I. Qed.

Lemma leaf_if {A : Type} (b : bool) (p q : prog A) :
  leaf p -> leaf q -> leaf (if b then p else q).
Proof. now destruct b. Qed.

Section RunFacts.
Context {U : Unicode}.
Variable net : request -> response.

Lemma exec_bind {A B : Type} (p : prog A) (f : A -> prog B) t w :
  exec net t (bind p f) w =
  match exec net t p w with
  | (Returned a, w') => exec net t (f a) w'
  | (Raised e, w') => (Raised e, w')
  end.
Proof. revert w. induction p; intros w; simpl; auto. Qed.

Lemma exec_leaf {A : Type} (p : prog A) t w t' w' :
  leaf p -> exec net t p w = (fst (exec net t' p w'), w).
Proof. destruct p; simpl; try contradiction; reflexivity. Qed.

Lemma leaf_py_lower v : leaf (py_lower v).
Proof. destruct v; exact I. Qed.

Lemma leaf_py_upper v : leaf (py_upper v).
Proof. destruct v; exact I. Qed.

Lemma leaf_py_strip v : leaf (py_strip v).
Proof. destruct v; exact I. Qed.

Lemma leaf_provider_error payload : leaf (provider_error payload).
Proof.
  unfold provider_error. apply leaf_bind; [apply leaf_py_in|].
  intros [|]; [|exact I].
  apply leaf_bind; [apply leaf_py_get|]. intros m.
  apply leaf_bind; [apply leaf_py_lower|]. intros l. exact I.
Qed.

Lemma leaf_pick_translation payload : leaf (pick_translation payload).
Proof.
  unfold pick_translation. apply leaf_bind; [apply leaf_py_get|]. intros tr.
  apply leaf_if; [exact I|].
  apply leaf_bind; [apply leaf_py_item0|]. intros first.
  apply leaf_bind; [apply leaf_py_get|]. intros translated.
  apply leaf_bind; [apply leaf_py_get|]. intros detected. exact I.
Qed.

(** The silent client touches the world only by its one network call,
    and its result depends on the plugin state alone. *)
Lemma exec_detect t w text lang :
  exec net t (_translate_and_detect text lang) w =
  (detect_result net (self w) text lang,
   if str_falsy (key_of (self w)) then w
   else logged t (Urlopen (request_of (self w) text lang)) w).
Proof.
  unfold detect_result, _translate_and_detect, request_of, key_of. cbn [exec boot self].
  destruct (str_falsy (strip (api_key (settings (self w))))); [reflexivity|].
  cbn [exec].
  destruct (net (build_request _ _ text lang)) as [err| |payload]; try reflexivity.
  apply (exec_leaf (pick_translation payload)), leaf_pick_translation.
Qed.

(** C6.  With an empty API key both clients fail at once and make no
    network call: the user-facing client reports that the key is not
    set (its only effect) and returns [None]; the silent client returns
    [(None, None)] and leaves the world as it was. *)
Theorem empty_key_fails_fast (t : thread) (w : world) (text : str)
    (lang : option str) :
  api_key (settings (self w)) = [] ->
  exec net t (_translate_via_deepl text lang) w
    = (Returned PNone, logged t (Output msg_no_key) w)
  /\ exec net t (_translate_and_detect text lang) w
    = (Returned (PNone, PNone), w).
Proof.
  intros Hkey. unfold _translate_via_deepl, _translate_and_detect.
  cbn [exec]. rewrite Hkey. split; reflexivity.
Qed.

End RunFacts.

Lemma empty_key_fails_fast_witness :
  api_key (settings (self (boot fresh_plugin))) = []
  /\ exec (fun _ => NotJson) MainThread
       (_translate_via_deepl (U := ascii_only) (py "hello") (Some (py "FR")))
       (boot fresh_plugin)
     = (Returned PNone, logged MainThread (Output msg_no_key) (boot fresh_plugin))
  /\ exec (fun _ => NotJson) MainThread
       (_translate_and_detect (U := ascii_only) (py "hello") (Some (py "FR")))
       (boot fresh_plugin)
     = (Returned (PNone, PNone), boot fresh_plugin).
Proof.
  split; [reflexivity|].
  apply (empty_key_fails_fast (U := ascii_only) (fun _ => NotJson)
           MainThread (boot fresh_plugin)).
  reflexivity.
Defined.

(** ** The provider payload *)

Section Payload.
Context {U : Unicode}.
Variable net : request -> response.

Lemma provider_error_dict (d : list (str * pyval)) :
  message_is_text d ->
  provider_error (PDict d) =
  Ret (if error_signalled d
       then match lookup_key (py "message") d with
            | Some (PStr m) => Some m
            | _ => None
            end
       else None).
Proof.
  unfold message_is_text, error_signalled, provider_error, py_in, field.
  destruct (lookup_key (py "message") d) as [[| | | |m| |]|] eqn:E;
    try contradiction; intros _; cbn; rewrite ?E; cbn; try reflexivity.
Qed.

Lemma exec_via_deepl_json t w text lang payload :
  str_falsy (key_of (self w)) = false ->
  net (request_of (self w) text lang) = Json payload ->
  exec net t (_translate_via_deepl text lang) w =
  exec net t
    (err <- provider_error payload ;;
     match err with
     | Some message => do (Output (py "DeepL error: " ++ message)) ;;; Ret PNone
     | None =>
         translations <- py_get payload (py "translations") PNone ;;
         if negb (truthy translations) then
           do (Output (py "DeepL returned no translations")) ;;; Ret PNone
         else
           first <- py_item0 translations ;;
           py_get first (py "text") (PStr [])
     end)
    (logged t (Urlopen (request_of (self w) text lang)) w).
Proof.
  intros Hkey Hnet. unfold _translate_via_deepl. cbn [exec].
  fold (key_of (self w)). rewrite Hkey.
  fold (request_of (self w) text lang). cbn [exec]. now rewrite Hnet.
Qed.

(** C5, amended.  For a parsed payload that is an object:
    - when [translations] is a non-empty list whose first element is an
      object, the silent client returns that object's [text] and
      [detected_source_language] (a missing [text] reads as the empty
      string, a missing language as [None]); the user-facing client
      returns the same [text] unless the payload has a [message]
      containing [error] in any case, and then it returns the failure
      [None];
    - when [translations] is absent or empty, both clients return their
      failure result, not a success with empty text.
    For the user-facing client the [message] of the payload, if there
    is one, is taken to be a string. *)
Theorem first_translation_or_failure (t : thread) (w : world) (text : str)
    (lang : option str) (d : list (str * pyval)) :
  str_falsy (key_of (self w)) = false ->
  net (request_of (self w) text lang) = Json (PDict d) ->
  (forall o more,
     lookup_key (py "translations") d = Some (PList (PDict o :: more)) ->
     fst (exec net t (_translate_and_detect text lang) w)
       = Returned (field (py "text") (PStr []) o,
                   field (py "detected_source_language") PNone o)
     /\ (message_is_text d ->
         fst (exec net t (_translate_via_deepl text lang) w)
           = Returned (if error_signalled d then PNone
                       else field (py "text") (PStr []) o)))
  /\ (lookup_key (py "translations") d = None
      \/ lookup_key (py "translations") d = Some (PList []) ->
      fst (exec net t (_translate_and_detect text lang) w) = Returned (PNone, PNone)
      /\ (message_is_text d ->
          fst (exec net t (_translate_via_deepl text lang) w) = Returned PNone)).
Proof.
  intros Hkey Hnet.
  pose proof (exec_via_deepl_json t w text lang _ Hkey Hnet) as Hvia.
  assert (Hdet : fst (exec net t (_translate_and_detect text lang) w)
                 = fst (exec net t (pick_translation (PDict d))
                          (logged t (Urlopen (request_of (self w) text lang)) w))).
  { unfold _translate_and_detect. cbn [exec]. fold (key_of (self w)).
    rewrite Hkey. fold (request_of (self w) text lang). cbn [exec].
    now rewrite Hnet. }
  split.
  - intros o more Htr. split.
    + rewrite Hdet. unfold pick_translation, field. cbn. rewrite Htr. reflexivity.
    + intros Hmsg. rewrite (provider_error_dict d Hmsg) in Hvia.
      rewrite Hvia. cbn. destruct (error_signalled d) eqn:Eerr.
      * unfold error_signalled in Eerr.
        destruct (lookup_key (py "message") d) as [[| | | |m| |]|];
          try discriminate Eerr; reflexivity.
      * cbn. rewrite Htr. reflexivity.
  - intros Htr. split.
    + rewrite Hdet. unfold pick_translation. cbn.
      destruct Htr as [-> | ->]; reflexivity.
    + intros Hmsg. rewrite (provider_error_dict d Hmsg) in Hvia.
      rewrite Hvia. cbn. destruct (error_signalled d) eqn:Eerr.
      * unfold error_signalled in Eerr.
        destruct (lookup_key (py "message") d) as [[| | | |m| |]|];
          try discriminate Eerr; reflexivity.
      * cbn. destruct Htr as [-> | ->]; reflexivity.
Qed.

End Payload.

(** C5, as stated, fails for the user-facing client: the payload below
    has a non-empty translations list whose first object has the text
    Hallo, and the client returns the failure [None]. *)
Lemma provider_message_hides_translation :
  lookup_key (py "translations") error_and_translation
    = Some (PList [PDict hallo_translation])
  /\ field (py "text") (PStr []) hallo_translation = PStr (py "Hallo")
  /\ fst (exec (fun _ => Json (PDict error_and_translation)) MainThread
            (_translate_via_deepl (U := ascii_only) (py "hello") (Some (py "DE")))
            (boot configured_plugin))
     = Returned PNone.
Proof. repeat split; vm_compute; reflexivity. Qed.

Lemma first_translation_or_failure_witness :
  str_falsy (key_of (U := ascii_only) (self (boot configured_plugin))) = false
  /\ fst (exec (fun _ => Json (PDict hallo_payload)) WorkerThread
            (_translate_and_detect (U := ascii_only) (py "hello") (Some (py "DE")))
            (boot configured_plugin))
     = Returned (PStr (py "Hallo"), PStr (py "EN"))
  /\ fst (exec (fun _ => Json (PDict hallo_payload)) WorkerThread
            (_translate_via_deepl (U := ascii_only) (py "hello") (Some (py "DE")))
            (boot configured_plugin))
     = Returned (PStr (py "Hallo")).
Proof.
  split; [reflexivity|].
  destruct (proj1 (first_translation_or_failure (U := ascii_only)
                     (fun _ => Json (PDict hallo_payload)) WorkerThread
                     (boot configured_plugin) (py "hello") (Some (py "DE"))
                     hallo_payload eq_refl eq_refl)
              hallo_translation [] eq_refl) as [Hdet Hvia].
  split; [exact Hdet | exact (Hvia I)].
Defined.

(** ** The Async Dispatch Layer *)

Section Dispatch.
Context {U : Unicode}.
Variable net : request -> response.

Lemma drain_quiescent (n : nat) (w : world) :
  threads w = [] -> main_queue w = [] -> drain net n w = w.
Proof. intros Ht Hq. destruct n; simpl; [reflexivity|]. now rewrite Ht, Hq. Qed.

Lemma pick_translation_absent (payload : pyval) (detected : pyval) w :
  fst (exec net WorkerThread (pick_translation payload) w) = Returned (PNone, detected) ->
  detected = PNone \/ null_text (Json payload) detected.
Proof.
  unfold pick_translation.
  destruct payload as [| | | | | |d]; try discriminate. cbn.
  destruct (lookup_key (py "translations") d) as [tr|] eqn:Etr; cbn;
    [|intros H; injection H as <-; now left].
  destruct tr as [|[]| |[]|[|]|[|first more]|[|]]; cbn;
    try discriminate; try (intros H; injection H as <-; now left).
  - intros H.
    destruct (negb (Z.eqb z 0)); cbn in H;
      [discriminate | injection H as <-; now left].
  - destruct first as [| | | | | |o]; try discriminate. cbn.
    destruct (lookup_key (py "text") o) as [tx|] eqn:Etx; cbn; [|discriminate].
    intros H. injection H as -> <-. right.
    exists d, o, more. unfold field. now rewrite Etx in *.
Qed.

Lemma detect_result_absent (s : plugin) (text : str) (lang : option str)
    (detected : pyval) :
  detect_result net s text lang = Returned (PNone, detected) ->
  detected = PNone \/ null_text (net (request_of s text lang)) detected.
Proof.
  unfold detect_result, _translate_and_detect. cbn [exec boot self].
  fold (key_of s). destruct (str_falsy (key_of s)).
  - intros H. injection H as <-. now left.
  - fold (request_of s text lang). cbn [exec].
    destruct (net (request_of s text lang)) as [err| |payload].
    + intros H. injection H as <-. now left.
    + intros H. injection H as <-. now left.
    + apply pick_translation_absent.
Qed.

Lemma exec_worker (text : str) (lang : option str)
    (on_success : pyval * pyval -> prog unit) (silent : bool) (s : plugin) :
  exec net WorkerThread (worker text lang on_success silent) (boot s) =
  match detect_result net s text lang with
  | Returned result =>
      (Returned tt,
       with_main_queue [deliver on_success silent result] (after_request s text lang))
  | Raised e => (Raised e, after_request s text lang)
  end.
Proof.
  unfold worker. rewrite exec_bind, exec_detect. unfold after_request.
  cbn [self boot].
  destruct (detect_result net s text lang) as [result|e]; [|reflexivity].
  destruct (str_falsy (key_of s)); reflexivity.
Qed.

Lemma after_request_quiescent (s : plugin) (text : str) (lang : option str) :
  threads (after_request s text lang) = []
  /\ main_queue (after_request s text lang) = []
  /\ self (after_request s text lang) = s.
Proof. unfold after_request. destruct (str_falsy (key_of s)); now repeat split. Qed.

(** How a dispatched translation runs, for any completion callback. *)
Lemma run_async (text : str) (lang : option str)
    (on_success : pyval * pyval -> prog unit) (silent : bool) (s : plugin)
    (n : nat) :
  drain net (S (S n))
    (with_threads [worker text lang on_success silent] (boot s)) =
  match detect_result net s text lang with
  | Returned (translated, detected) =>
      if is_none translated && negb silent
      then after_request s text lang
      else drain net n
             (snd (exec net MainThread (on_success (translated, detected))
                     (after_request s text lang)))
  | Raised _ => after_request s text lang
  end.
Proof.
  destruct (after_request_quiescent s text lang) as (Ht & Hq & _).
  cbn [drain threads with_threads].
  change (with_threads [] _) with (boot s).
  rewrite exec_worker.
  destruct (after_request s text lang) as [sf lg th mq].
  cbn [threads main_queue] in Ht, Hq. subst th mq.
  destruct (detect_result net s text lang) as [[translated detected]|e];
    cbn [snd threads main_queue with_main_queue self log].
  - unfold deliver.
    destruct (is_none translated && negb silent); [|reflexivity].
    cbn [exec snd]. now apply drain_quiescent.
  - destruct n; reflexivity.
Qed.

(** C2, amended.  A dispatched translation makes its request on a
    worker and then, on the main thread:
    - does not invoke [on_success] when the translated text is [None]
      and [silent] is false;
    - otherwise invokes [on_success] with the pair the client returned,
      unchanged: the text and the detected language when there is a
      text, and with [silent] also a pair whose text is [None].
    That last pair is [(None, None)] for every failure of the client;
    its second component is something else only when the provider sent
    an explicit null [text] together with a detected language. *)
Theorem async_delivery (text : str) (lang : option str)
    (on_success : pyval * pyval -> prog unit) (silent : bool) (s : plugin)
    (n : nat) :
  run net (S (S n)) (_async_translate text lang on_success silent) s =
    (Returned tt,
     match detect_result net s text lang with
     | Returned (translated, detected) =>
         if is_none translated && negb silent
         then after_request s text lang
         else drain net n
                (snd (exec net MainThread (on_success (translated, detected))
                        (after_request s text lang)))
     | Raised _ => after_request s text lang
     end)
  /\ (forall detected,
        detect_result net s text lang = Returned (PNone, detected) ->
        detected = PNone \/ null_text (net (request_of s text lang)) detected).
Proof.
  split; [|apply detect_result_absent].
  unfold run, _async_translate. cbn [exec].
  change (with_threads _ (boot s))
    with (with_threads [worker text lang on_success silent] (boot s)).
  now rewrite run_async.
Qed.

End Dispatch.

(** C2, as stated, fails: with [silent] set and the answer above, the
    callback is invoked with [(None, "EN")], not with [(None, None)]. *)
Lemma silent_delivery_keeps_language :
  detect_result (U := ascii_only) (fun _ => Json null_text_payload)
    configured_plugin (py "hola") (Some (py "EN-GB"))
    = Returned (PNone, PStr (py "EN"))
  /\ log (snd (run (fun _ => Json null_text_payload) 2
                 (_async_translate (U := ascii_only) (py "hola")
                    (Some (py "EN-GB")) print_language true)
                 configured_plugin))
     = [(WorkerThread,
         Urlopen (request_of (U := ascii_only) configured_plugin (py "hola")
                    (Some (py "EN-GB"))));
        (MainThread, Output (py "EN"))].
Proof. split; vm_compute; reflexivity. Qed.

(** ** Which thread does what *)

Lemma confined_leaf {A : Type} (t : thread) (p : prog A) : leaf p -> confined t p.
Proof. destruct p; simpl; try contradiction; auto. Qed.

Lemma confined_bind {A B : Type} (t : thread) (p : prog A) (f : A -> prog B) :
  confined t p -> (forall a, confined t (f a)) -> confined t (bind p f).
Proof.
  intros Hp Hf. induction p; simpl in *; auto.
  - destruct Hp as (? & ? & ?). auto.
  - destruct Hp as (? & ?). auto.
  - destruct Hp as (? & ?). auto.
  - destruct Hp as (? & ?). auto.
Qed.

Section Confinement.
Context {U : Unicode}.
Variable net : request -> response.

Lemma exec_confined {A : Type} (p : prog A) (t : thread) (w : world) :
  confined t p -> world_confined w -> world_confined (snd (exec net t p w)).
Proof.
  revert w. induction p as [A a|A e|A e k IH|A req k IH|A k IH|A s k IH|A wk _ k IH|A cb _ k IH];
    intros w Hp Hw; simpl in *; auto.
  - destruct Hp as (-> & He & Hk). apply IH; [exact Hk|].
    destruct Hw as (Hl & Ht & Hq). repeat split; auto. cbn.
    apply Forall_app. split; [exact Hl|]. constructor; [|constructor].
    destruct e; try reflexivity; discriminate.
  - destruct Hp as (-> & Hk). apply IH; [apply Hk|].
    destruct Hw as (Hl & Ht & Hq). repeat split; auto. cbn.
    apply Forall_app. split; [exact Hl|]. constructor; [reflexivity|constructor].
  - destruct Hp as (Hwk & Hk). apply IH; [exact Hk|].
    destruct Hw as (Hl & Ht & Hq). repeat split; auto. cbn.
    apply Forall_app. split; [exact Ht|]. now constructor.
  - destruct Hp as (Hcb & Hk). apply IH; [exact Hk|].
    destruct Hw as (Hl & Ht & Hq). repeat split; auto. cbn.
    apply Forall_app. split; [exact Hq|]. now constructor.
Qed.

Lemma drain_confined (n : nat) (w : world) :
  world_confined w -> world_confined (drain net n w).
Proof.
  revert w. induction n as [|n IH]; intros w Hw; [exact Hw|]. simpl.
  destruct Hw as (Hl & Ht & Hq).
  destruct (threads w) as [|wk rest] eqn:Eth.
  - destruct (main_queue w) as [|cb rest] eqn:Eq.
    + repeat split; auto; [rewrite Eth | rewrite Eq]; constructor.
    + apply IH, exec_confined; [exact (Forall_inv Hq)|].
      repeat split; cbn; [exact Hl | rewrite Eth; constructor
                          | exact (Forall_inv_tail Hq)].
  - apply IH, exec_confined; [exact (Forall_inv Ht)|].
    repeat split; cbn; [exact Hl | exact (Forall_inv_tail Ht) | exact Hq].
Qed.

Lemma step_confined (w w' : world) :
  sched_step net w w' -> world_confined w -> world_confined w'.
Proof.
  intros Hstep (Hl & Ht & Hq). destruct Hstep as [w before wk after E|w cb rest E].
  - rewrite E in Ht. apply Forall_app in Ht as (Hb & Ha).
    apply exec_confined; [exact (Forall_inv Ha)|].
    repeat split; cbn; [exact Hl| |exact Hq].
    apply Forall_app. split; [exact Hb | exact (Forall_inv_tail Ha)].
  - rewrite E in Hq. apply exec_confined; [exact (Forall_inv Hq)|].
    repeat split; cbn; [exact Hl | exact Ht | exact (Forall_inv_tail Hq)].
Qed.

Lemma drain_is_schedule (n : nat) (w : world) :
  rtc (sched_step net) w (drain net n w).
Proof.
  revert w. induction n as [|n IH]; intros w; [apply rtc_refl|]. simpl.
  destruct (threads w) as [|wk rest] eqn:Eth.
  - destruct (main_queue w) as [|cb rest] eqn:Eq; [apply rtc_refl|].
    eapply rtc_l; [|apply IH]. now apply step_main.
  - eapply rtc_l; [|apply IH]. now apply (step_worker net w [] wk rest).
Qed.

Lemma reaches_confined {A : Type} (handler : prog A) (s : plugin) (w' : world) :
  confined MainThread handler ->
  reaches net handler s w' -> Forall placed (log w').
Proof.
  intros Hh Hr. unfold reaches in Hr.
  assert (H0 : world_confined (snd (exec net MainThread handler (boot s)))).
  { apply exec_confined; [exact Hh|]. repeat split; constructor. }
  induction Hr as [w|w w1 w2 Hstep _ IH]; [apply H0|].
  apply IH. eapply step_confined; eassumption.
Qed.

Lemma run_reaches {A : Type} (n : nat) (handler : prog A) (s : plugin) :
  reaches net handler s (snd (run net n handler s)).
Proof.
  unfold reaches, run.
  destruct (exec net MainThread handler (boot s)) as [r w]. cbn [snd].
  apply drain_is_schedule.
Qed.

Lemma run_confined {A : Type} (n : nat) (handler : prog A) (s : plugin) :
  confined MainThread handler ->
  Forall placed (log (snd (run net n handler s))).
Proof.
  intros Hh. unfold run.
  destruct (exec net MainThread handler (boot s)) as [r w] eqn:E. cbn [snd].
  apply drain_confined.
  change w with (snd (r, w)). rewrite <- E. apply exec_confined; [exact Hh|].
  repeat split; constructor.
Qed.

Lemma confined_detect (text : str) (lang : option str) :
  confined WorkerThread (_translate_and_detect text lang).
Proof.
  unfold _translate_and_detect. intros s.
  destruct (str_falsy _); [exact I|]. split; [reflexivity|].
  intros [err| |payload]; try exact I.
  apply (confined_leaf _ (pick_translation payload)), leaf_pick_translation.
Qed.

Lemma confined_async (t : thread) (text : str) (lang : option str)
    (on_success : pyval * pyval -> prog unit) (silent : bool) :
  (forall result, confined MainThread (on_success result)) ->
  confined t (_async_translate text lang on_success silent).
Proof.
  intros Hcb. unfold _async_translate, worker. split; [|exact I].
  apply confined_bind; [apply confined_detect|].
  intros [translated detected]. split; [|exact I]. unfold deliver.
  destruct (is_none translated && negb silent); [exact I|apply Hcb].
Qed.

End Confinement.

Ltac confine :=
  repeat (cbn [confined bind do touches_ui];
          match goal with
          | |- True => exact I
          | |- _ = _ => reflexivity
          | |- _ /\ _ => split
          | |- forall _, _ => intros ?
          | |- confined _ (_async_translate _ _ _ _) =>
              apply confined_async; intros [? ?]
          | |- confined _ (py_strip _) => apply confined_leaf, leaf_py_strip
          | |- confined _ (py_upper _) => apply confined_leaf, leaf_py_upper
          | |- confined _ (bind _ _) => apply confined_bind
          | |- confined _ (if ?b then _ else _) => destruct b
          | |- confined _ (match ?x with _ => _ end) => destruct x
          end).

Section HandlersConfined.
Context {U : Unicode}.

Lemma confined_outgoing_shortcut (line : str) (context : str * str) :
  confined MainThread (_handle_outgoing_shortcut line context).
Proof. unfold _handle_outgoing_shortcut. confine. Qed.

Lemma confined_outgoing_public (room line : str) :
  confined MainThread (outgoing_public_chat_event room line).
Proof.
  unfold outgoing_public_chat_event.
  apply confined_bind; [apply confined_outgoing_shortcut|]. intros [|]; exact I.
Qed.

Lemma confined_outgoing_private (user line : str) :
  confined MainThread (outgoing_private_chat_event user line).
Proof.
  unfold outgoing_private_chat_event.
  apply confined_bind; [apply confined_outgoing_shortcut|]. intros [|]; exact I.
Qed.

Lemma confined_incoming_public (room user line : str) :
  confined MainThread (incoming_public_chat_notification room user line).
Proof. unfold incoming_public_chat_notification. confine. Qed.

Lemma confined_incoming_private (user line : str) :
  confined MainThread (incoming_private_chat_notification user line).
Proof. unfold incoming_private_chat_notification. confine. Qed.

End HandlersConfined.

Section ThreadConfinement.
Context {U : Unicode}.
Variable net : request -> response.

(** C1, amended.  Every translation dispatched through the Async
    Dispatch Layer (the inline shortcut and the auto-translate notifier)
    keeps the network call off the main thread: the dispatching thread
    only starts a worker; the worker makes the call and posts the
    delivery to the main thread without running it; and under every
    schedule of the four chat handlers each network call is on a worker
    thread and each effect on the chat UI, so each effect of a
    completion callback, is on the main thread.  (The explicit
    translate command is not covered: it calls the user-facing client
    where it runs.) *)
Theorem async_paths_confined (s : plugin) :
  (forall text lang on_success silent,
     exec net MainThread (_async_translate text lang on_success silent) (boot s)
       = (Returned tt, with_threads [worker text lang on_success silent] (boot s))
     /\ exec net WorkerThread (worker text lang on_success silent) (boot s)
       = match detect_result net s text lang with
         | Returned result =>
             (Returned tt,
              with_main_queue [deliver on_success silent result]
                (after_request s text lang))
         | Raised e => (Raised e, after_request s text lang)
         end
     /\ ((forall result, confined MainThread (on_success result)) ->
         forall w',
           reaches net (_async_translate text lang on_success silent) s w' ->
           Forall placed (log w')))
  /\ (forall room user line w',
        reaches net (incoming_public_chat_notification room user line) s w' ->
        Forall placed (log w'))
  /\ (forall user line w',
        reaches net (incoming_private_chat_notification user line) s w' ->
        Forall placed (log w'))
  /\ (forall room line w',
        reaches net (outgoing_public_chat_event room line) s w' ->
        Forall placed (log w'))
  /\ (forall user line w',
        reaches net (outgoing_private_chat_event user line) s w' ->
        Forall placed (log w'))
  /\ (forall (A : Type) (handler : prog A) (n : nat),
        reaches net handler s (snd (run net n handler s))).
Proof.
  split; [|split; [|split; [|split; [|split]]]].
  - intros text lang on_success silent. split; [reflexivity|].
    split; [apply exec_worker|].
    intros Hcb w'. apply reaches_confined, confined_async, Hcb.
  - intros room user line w'. apply reaches_confined, confined_incoming_public.
  - intros user line w'. apply reaches_confined, confined_incoming_private.
  - intros room line w'. apply reaches_confined, confined_outgoing_public.
  - intros user line w'. apply reaches_confined, confined_outgoing_private.
  - intros A handler n. apply run_reaches.
Qed.

End ThreadConfinement.

(** C1, as stated, fails for the explicit command: typed in a chat
    room, [/translate FR hello] makes its network call on the main
    thread, where the handler runs, and then sends the translation. *)
Lemma translate_command_calls_on_main_thread :
  run (fun _ => Json (PDict hallo_payload)) 2
    (translate_command (U := ascii_only) (py "FR hello") None (Some (py "room")))
    configured_plugin
  = (Returned true,
     {| self := configured_plugin;
        log := [(MainThread,
                 Urlopen (request_of (U := ascii_only) configured_plugin
                            (py "hello") (Some (py "FR"))));
                (MainThread, SendPublic (py "room") (py "Hallo"))];
        threads := [];
        main_queue := [] |}).
Proof. vm_compute. reflexivity. Qed.

(** ** Conversation Memory *)

Lemma keeps_self_leaf {A : Type} (p : prog A) : leaf p -> keeps_self p.
Proof. destruct p; simpl; try contradiction; auto. Qed.

Lemma keeps_self_bind {A B : Type} (p : prog A) (f : A -> prog B) :
  keeps_self p -> (forall a, keeps_self (f a)) -> keeps_self (bind p f).
Proof.
  intros Hp Hf. induction p; simpl in *; auto; try contradiction.
  - destruct Hp as (? & ?). auto.
  - destruct Hp as (? & ?). auto.
Qed.

Section Memory.
Context {U : Unicode}.
Variable net : request -> response.

Lemma exec_keeps_self {A : Type} (p : prog A) (t : thread) (w : world) :
  keeps_self p -> pending_keep_self w ->
  self (snd (exec net t p w)) = self w
  /\ pending_keep_self (snd (exec net t p w)).
Proof.
  revert w.
  induction p as [A a|A e|A e k IH|A req k IH|A k IH|A s k IH|A wk _ k IH|A cb _ k IH];
    intros w Hp Hw; simpl in *; auto; try contradiction.
  - apply (IH (logged t e w)); auto.
  - apply (IH _ (logged t (Urlopen req) w)); auto.
  - destruct Hp as (Hwk & Hk), Hw as (Ht & Hq).
    apply (IH (with_threads (threads w ++ [wk]) w)); [exact Hk|].
    split; cbn; [|exact Hq]. apply Forall_app. split; [exact Ht|now constructor].
  - destruct Hp as (Hcb & Hk), Hw as (Ht & Hq).
    apply (IH (with_main_queue (main_queue w ++ [cb]) w)); [exact Hk|].
    split; cbn; [exact Ht|]. apply Forall_app. split; [exact Hq|now constructor].
Qed.

Lemma drain_keeps_self (n : nat) (w : world) :
  pending_keep_self w -> self (drain net n w) = self w.
Proof.
  revert w. induction n as [|n IH]; intros w Hw; [reflexivity|]. simpl.
  destruct Hw as (Ht & Hq).
  destruct (threads w) as [|wk rest] eqn:Eth.
  - destruct (main_queue w) as [|cb rest] eqn:Eq; [reflexivity|].
    destruct (exec_keeps_self cb MainThread (with_main_queue rest w)) as (Hs & Hp).
    + exact (Forall_inv Hq).
    + split; cbn; [rewrite Eth; constructor | exact (Forall_inv_tail Hq)].
    + rewrite IH; [exact Hs | exact Hp].
  - destruct (exec_keeps_self wk WorkerThread (with_threads rest w)) as (Hs & Hp).
    + exact (Forall_inv Ht).
    + split; cbn; [exact (Forall_inv_tail Ht) | exact Hq].
    + rewrite IH; [exact Hs | exact Hp].
Qed.

Lemma step_keeps_self (w w' : world) :
  sched_step net w w' -> pending_keep_self w ->
  self w' = self w /\ pending_keep_self w'.
Proof.
  intros Hstep (Ht & Hq). destruct Hstep as [w before wk after E|w cb rest E].
  - rewrite E in Ht. apply Forall_app in Ht as (Hb & Ha).
    apply (exec_keeps_self wk WorkerThread (with_threads (before ++ after) w));
      [exact (Forall_inv Ha)|].
    split; cbn; [|exact Hq].
    apply Forall_app. split; [exact Hb | exact (Forall_inv_tail Ha)].
  - rewrite E in Hq.
    apply (exec_keeps_self cb MainThread (with_main_queue rest w));
      [exact (Forall_inv Hq)|].
    split; cbn; [exact Ht | exact (Forall_inv_tail Hq)].
Qed.

Lemma schedule_keeps_self (w w' : world) :
  rtc (sched_step net) w w' -> pending_keep_self w -> self w' = self w.
Proof.
  intros Hr. induction Hr as [w|w w1 w2 Hstep _ IH]; [reflexivity|].
  intros Hw. destruct (step_keeps_self _ _ Hstep Hw) as (Hs & Hp).
  now rewrite IH.
Qed.

Lemma keeps_self_detect (text : str) (lang : option str) :
  keeps_self (_translate_and_detect text lang).
Proof.
  unfold _translate_and_detect. intros s.
  destruct (str_falsy _); [exact I|].
  intros [err| |payload]; try exact I.
  apply (keeps_self_leaf (pick_translation payload)), leaf_pick_translation.
Qed.

Lemma keeps_self_async (text : str) (lang : option str)
    (on_success : pyval * pyval -> prog unit) (silent : bool) :
  (forall result, keeps_self (on_success result)) ->
  keeps_self (_async_translate text lang on_success silent).
Proof.
  intros Hcb. unfold _async_translate, worker. split; [|exact I].
  apply keeps_self_bind; [apply keeps_self_detect|].
  intros [translated detected]. split; [|exact I]. unfold deliver.
  destruct (is_none translated && negb silent); [exact I|apply Hcb].
Qed.

End Memory.

Ltac keep_self :=
  repeat (cbn [keeps_self bind do];
          match goal with
          | |- True => exact I
          | |- _ /\ _ => split
          | |- forall _, _ => intros ?
          | |- keeps_self (_async_translate _ _ _ _) =>
              apply keeps_self_async; intros [? ?]
          | |- keeps_self (py_strip _) => apply keeps_self_leaf, leaf_py_strip
          | |- keeps_self (py_upper _) => apply keeps_self_leaf, leaf_py_upper
          | |- keeps_self (bind _ _) => apply keeps_self_bind
          | |- keeps_self (if ?b then _ else _) => destruct b
          | |- keeps_self (match ?x with _ => _ end) => destruct x
          end).

Section MemoryRecord.
Context {U : Unicode}.
Variable net : request -> response.

Lemma run_snd {A : Type} (n : nat) (handler : prog A) (s : plugin) :
  snd (run net n handler s) = drain net n (snd (exec net MainThread handler (boot s))).
Proof. unfold run. now destruct (exec net MainThread handler (boot s)). Qed.

Lemma run_fst {A : Type} (n : nat) (handler : prog A) (s : plugin) :
  fst (run net n handler s) = fst (exec net MainThread handler (boot s)).
Proof. unfold run. now destruct (exec net MainThread handler (boot s)). Qed.

Lemma settle_keeps_self {A : Type} (n : nat) (p : prog A) (w : world) :
  keeps_self p -> pending_keep_self w ->
  self (drain net n (snd (exec net MainThread p w))) = self w.
Proof.
  intros Hp Hw. destruct (exec_keeps_self net p MainThread w Hp Hw) as (Hs & Hq).
  now rewrite drain_keeps_self.
Qed.

Lemma boot_pending (s : plugin) : pending_keep_self (boot s).
Proof. split; constructor. Qed.

Lemma is_other_true (user : str) (s : plugin) :
  is_other user s = true <-> Some user <> login_username s.
Proof.
  unfold is_other. rewrite negb_true_iff, bool_decide_eq_false. reflexivity.
Qed.

Lemma is_other_false (user : str) (s : plugin) :
  is_other user s = false <-> Some user = login_username s.
Proof.
  unfold is_other. rewrite negb_false_iff, bool_decide_eq_true. reflexivity.
Qed.

Lemma incoming_public_self (s : plugin) (room user line : str) (w' : world) :
  reaches net (incoming_public_chat_notification room user line) s w' ->
  self w' = if is_other user s then set_last_public <[room := (user, line)]> s else s.
Proof.
  unfold reaches, incoming_public_chat_notification.
  cbn [exec self boot]. destruct (is_other user s) eqn:Eo; cbn [bind exec].
  - change (with_self ?p (boot s)) with (boot p).
    intros Hr. apply schedule_keeps_self in Hr.
    + rewrite Hr. apply exec_keeps_self; [|apply boot_pending]. keep_self.
    + apply exec_keeps_self; [|apply boot_pending]. keep_self.
  - intros Hr. apply schedule_keeps_self in Hr.
    + rewrite Hr. apply exec_keeps_self; [|apply boot_pending]. keep_self.
    + apply exec_keeps_self; [|apply boot_pending]. keep_self.
Qed.

Lemma incoming_private_self (s : plugin) (user line : str) (w' : world) :
  reaches net (incoming_private_chat_notification user line) s w' ->
  self w' = if is_other user s then set_last_private <[user := (user, line)]> s else s.
Proof.
  unfold reaches, incoming_private_chat_notification.
  cbn [exec self boot]. destruct (is_other user s) eqn:Eo; cbn [bind exec].
  - change (with_self ?p (boot s)) with (boot p).
    intros Hr. apply schedule_keeps_self in Hr.
    + rewrite Hr. apply exec_keeps_self; [|apply boot_pending]. keep_self.
    + apply exec_keeps_self; [|apply boot_pending]. keep_self.
  - intros Hr. apply schedule_keeps_self in Hr.
    + rewrite Hr. apply exec_keeps_self; [|apply boot_pending]. keep_self.
    + apply exec_keeps_self; [|apply boot_pending]. keep_self.
Qed.

(** C9.  After an incoming public or private line, under every
    schedule of what it sets off (among them every [run]), the plugin
    is as before except that, when the sender is not the local user,
    the Conversation Memory entry of the room (or of the peer) is the
    pair of the sender and the text; when the sender is the local user
    nothing stored has changed. *)
Theorem memory_records_others_only (s : plugin) (room user line : str)
    (in_room in_private : world) :
  reaches net (incoming_public_chat_notification room user line) s in_room ->
  reaches net (incoming_private_chat_notification user line) s in_private ->
  (Some user <> login_username s ->
     self in_room = set_last_public <[room := (user, line)]> s
     /\ _last_public_message (self in_room) !! room = Some (user, line)
     /\ (forall key, key <> room ->
           _last_public_message (self in_room) !! key = _last_public_message s !! key)
     /\ self in_private = set_last_private <[user := (user, line)]> s
     /\ _last_private_message (self in_private) !! user = Some (user, line)
     /\ (forall key, key <> user ->
           _last_private_message (self in_private) !! key
           = _last_private_message s !! key))
  /\ (Some user = login_username s -> self in_room = s /\ self in_private = s)
  /\ (self in_room <> s \/ self in_private <> s -> Some user <> login_username s).
Proof.
  intros Hpub Hpriv.
  apply incoming_public_self in Hpub. apply incoming_private_self in Hpriv.
  destruct in_room as [public' l1 t1 q1], in_private as [private' l2 t2 q2].
  cbn [self] in *.
  destruct (is_other user s) eqn:Eo.
  - apply is_other_true in Eo. subst.
    repeat split; try tauto; cbn;
      try apply lookup_insert_eq;
      try (intros key Hk; apply lookup_insert_ne; congruence).
  - apply is_other_false in Eo. subst.
    repeat split; try tauto; try congruence.
Qed.

End MemoryRecord.

(** ** The shortcut pattern *)

Lemma try_down_some {R : Type} (f : nat -> option R) (lo n : nat) (r : R) :
  try_down f lo n = Some r -> exists k, (lo <= k <= n)%nat /\ f k = Some r.
Proof.
  induction n as [|n IH]; simpl.
  - destruct (0 <? lo)%nat eqn:E; [discriminate|]. apply Nat.ltb_ge in E.
    destruct (f 0%nat) eqn:Ef; [|discriminate].
    intros [= <-]. exists 0%nat. split; [lia|exact Ef].
  - destruct (S n <? lo)%nat eqn:E; [discriminate|]. apply Nat.ltb_ge in E.
    destruct (f (S n)) eqn:Ef.
    + intros [= <-]. exists (S n). split; [lia|exact Ef].
    + intros H. destruct (IH H) as (k & Hk & Hf). exists k. split; [lia|exact Hf].
Qed.

Lemma try_down_none {R : Type} (f : nat -> option R) (lo n : nat) :
  (forall k, (lo <= k <= n)%nat -> f k = None) -> try_down f lo n = None.
Proof.
  induction n as [|n IH]; intros H; simpl.
  - destruct (0 <? lo)%nat eqn:E; [reflexivity|]. apply Nat.ltb_ge in E.
    rewrite H by lia. reflexivity.
  - destruct (S n <? lo)%nat eqn:E; [reflexivity|]. apply Nat.ltb_ge in E.
    rewrite H by lia. apply IH. intros k Hk. apply H. lia.
Qed.

Lemma run_length_take (cls : char -> bool) (s : str) (k : nat) :
  (k <= run_length cls s)%nat ->
  forallb cls (take k s) = true /\ length (take k s) = k.
Proof.
  revert k. induction s as [|c s IH]; intros k Hk; simpl in Hk.
  - assert (k = 0%nat) as -> by lia. now split.
  - destruct k as [|k]; [now split|].
    destruct (cls c) eqn:Ec; [|lia].
    destruct (IH k) as (Ha & Hl); [lia|].
    cbn. rewrite Ec, Ha, Hl. now split.
Qed.

Section ShortcutPattern.
Context {U : Unicode}.

(** The shape of a match: blanks, the at sign, a token made of one
    ASCII letter and one to nine more characters of the class, blanks,
    and the text. *)
Lemma shortcut_match_shape (line target g2 : str) :
  shortcut_match line = Some (target, g2) ->
  exists c more,
    target = c :: more
    /\ ascii_isalpha c = true
    /\ (1 <= length more <= 9)%nat
    /\ forallb lang_class more = true.
Proof.
  unfold shortcut_match, shortcut_re. cbn [rmatch Nat.eqb].
  destruct (try_down _ _ _) as [marks|] eqn:E0; [|discriminate].
  apply try_down_some in E0 as (n0 & _ & E1).
  apply try_down_some in E1 as (n1 & _ & E2).
  generalize dependent (drop n1 (drop n0 line)). intros s1 E2.
  apply try_down_some in E2 as (n2 & Hn2 & E3).
  apply try_down_some in E3 as (n3 & Hn3 & E4).
  apply try_down_some in E4 as (n4 & _ & E5).
  apply try_down_some in E5 as (n5 & _ & E6).
  destruct (at_eol _); [|discriminate]. injection E6 as <-.
  cbn [group mark Bool.eqb andb Nat.eqb].
  intros [= <- _].
  assert (Hk2 : n2 = 1%nat) by lia. subst n2.
  destruct (run_length_take ascii_isalpha s1 1) as (Ha2 & Hl2); [lia|].
  destruct (run_length_take lang_class (drop 1 s1) n3) as (Ha3 & Hl3); [lia|].
  rewrite !length_drop.
  assert (Hlen1 : (1 <= length s1)%nat)
    by (rewrite <- Hl2 at 1; rewrite length_take; lia).
  assert (Hlen3 : (n3 <= length s1 - 1)%nat).
  { rewrite <- Hl3 at 1. rewrite length_take, length_drop. lia. }
  replace (length s1 - (length s1 - 1 - n3))%nat with (1 + n3)%nat by lia.
  destruct s1 as [|c s1']; [cbn in Hlen1; lia|].
  exists c, (take n3 s1'). cbn [take Nat.add].
  cbn in Ha2, Ha3, Hl3. change (drop 0 s1') with s1' in *.
  rewrite andb_true_r in Ha2.
  repeat split; auto; lia.
Qed.

Lemma lang_class_char (c : char) : lang_class c = true -> lang_char c = true.
Proof.
  unfold lang_class, lang_char. rewrite !orb_true_iff.
  intros [H|H]; [left|now right].
  rewrite isalpha_ascii; [exact H|].
  unfold ascii_isalpha, ascii_isupper, ascii_islower, is_ascii in *.
  apply orb_true_iff in H.
  rewrite !andb_true_iff, !N.leb_le in H. lia.
Qed.

Lemma shortcut_token_valid (line target g2 : str) :
  shortcut_match line = Some (target, g2) -> _looks_like_lang target = true.
Proof.
  intros H. apply shortcut_match_shape in H as (c & more & -> & Hc & Hlen & Hmore).
  apply looks_like_lang_true. split; [cbn; lia|].
  cbn [forallb]. apply andb_true_iff. split.
  - apply lang_class_char. unfold lang_class. now rewrite Hc.
  - rewrite forallb_forall in *. intros x Hx. apply lang_class_char, Hmore, Hx.
Qed.

(** C10.  The token captured by the shortcut pattern is an ASCII letter
    followed by one to nine ASCII letters, hyphens or underscores, so
    two to ten characters in all, and the Language-Token Validator
    accepts it: the test that guards the rejecting branch of
    [_handle_outgoing_shortcut] is false at every match. *)
Theorem shortcut_token_always_valid (line target g2 : str) :
  shortcut_match line = Some (target, g2) ->
  (2 <= length target <= 10)%nat
  /\ (exists c more, target = c :: more /\ ascii_isalpha c = true
                     /\ forallb lang_class more = true)
  /\ _looks_like_lang target = true
  /\ negb (_looks_like_lang target) = false.
Proof.
  intros H. pose proof (shortcut_token_valid _ _ _ H) as Hv.
  apply shortcut_match_shape in H as (c & more & -> & Hc & Hlen & Hmore).
  split; [cbn; lia|]. split; [now exists c, more|]. now rewrite Hv.
Qed.

End ShortcutPattern.

Lemma shortcut_token_always_valid_witness :
  shortcut_match (U := ascii_only) (py "@ES buenos dias")
    = Some (py "ES", py "buenos dias")
  /\ _looks_like_lang (U := ascii_only) (py "ES") = true.
Proof.
  split; [reflexivity|].
  apply (shortcut_token_always_valid (U := ascii_only)
           (py "@ES buenos dias") (py "ES") (py "buenos dias")).
  reflexivity.
Defined.

(** ** Outgoing lines *)

Section Outgoing.
Context {U : Unicode}.
Variable net : request -> response.

Lemma handle_no_match (line : str) (context : str * str) :
  shortcut_match line = None ->
  _handle_outgoing_shortcut line context = Ret false.
Proof. intros H. unfold _handle_outgoing_shortcut. now rewrite H. Qed.

Lemma handle_text (line target g2 : str) (context : str * str) :
  shortcut_match line = Some (target, g2) ->
  str_falsy (strip g2) = false ->
  _handle_outgoing_shortcut line context =
  (_async_translate (strip g2) (Some target) (send_translation context) false ;;;
   Ret true).
Proof.
  intros H Hrest. unfold _handle_outgoing_shortcut.
  rewrite H, (shortcut_token_valid _ _ _ H), Hrest. reflexivity.
Qed.

Lemma handle_bare (line target g2 : str) (public : bool) (name : str) :
  shortcut_match line = Some (target, g2) ->
  str_falsy (strip g2) = true ->
  _handle_outgoing_shortcut line (chat public name) =
  GetSelf (fun self =>
    match remembered public name self with
    | None => do (Output (py "No recent message to translate")) ;;; Ret true
    | Some (last_user, last_text) =>
        _async_translate last_text (Some target)
          (echo_translation public name target last_user) false ;;;
        Ret true
    end).
Proof.
  intros H Hrest. unfold _handle_outgoing_shortcut.
  rewrite H, (shortcut_token_valid _ _ _ H), Hrest.
  destruct public; reflexivity.
Qed.

Lemma exec_send_translation (public : bool) (name : str) (translated detected : pyval)
    (w : world) :
  snd (exec net MainThread (send_translation (chat public name) (translated, detected)) w) =
  match nonempty_text translated with
  | Some text => logged MainThread (send public name (_strip_wrapping_quotes (strip text))) w
  | None => w
  end.
Proof.
  unfold send_translation.
  destruct translated as [|[]|z|[]|[|c t]|[|x l]|[|x d]]; try reflexivity.
  - cbn. now destruct (Z.eqb z 0).
  - destruct public; reflexivity.
Qed.

Lemma exec_echo_translation (public : bool) (name target last_user : str)
    (translated detected : pyval) (w : world) :
  snd (exec net MainThread
         (echo_translation public name target last_user (translated, detected)) w) =
  match nonempty_text translated with
  | Some text =>
      logged MainThread
        (echo public name
           (py "[" ++ target ++ py "] " ++ last_user ++ py ": "
            ++ _strip_wrapping_quotes (strip text))) w
  | None => w
  end.
Proof.
  unfold echo_translation.
  destruct translated as [|[]|z|[]|[|c t]|[|x l]|[|x d]]; try reflexivity.
  - cbn. now destruct (Z.eqb z 0).
  - cbn. now rewrite <- !app_assoc.
Qed.

Lemma logged_quiescent_drain (n : nat) (t : thread) (e : effect) (w : world) :
  threads w = [] -> main_queue w = [] -> drain net n (logged t e w) = logged t e w.
Proof. intros Ht Hq. now apply drain_quiescent. Qed.

Lemma request_of_target (s : plugin) (text target : str) :
  target <> [] ->
  data (request_of s text (Some target)) =
  (py "auth_key", key_of s) :: (py "text", text) :: (py "target_lang", target)
  :: (if preserve_formatting (settings s)
      then [(py "preserve_formatting", py "1")] else []).
Proof.
  intros Ht. unfold request_of, build_request. cbn [data from_option id].
  destruct target as [|c target]; [contradiction|]. cbn [str_or str_falsy].
  now destruct (preserve_formatting (settings s)).
Qed.

Lemma exec_dispatch {A : Type} (text : str) (lang : option str)
    (on_success : pyval * pyval -> prog unit) (silent : bool) (a : A) (s : plugin) :
  exec net MainThread (_async_translate text lang on_success silent ;;; Ret a) (boot s)
  = (Returned a, with_threads [worker text lang on_success silent] (boot s)).
Proof. reflexivity. Qed.

(** A run that consists of one dispatch. *)
Lemma run_dispatch {A : Type} (n : nat) (text : str) (lang : option str)
    (on_success : pyval * pyval -> prog unit) (silent : bool) (a : A) (s : plugin) :
  run net (S (S n)) (_async_translate text lang on_success silent ;;; Ret a) s =
  (Returned a,
   match detect_result net s text lang with
   | Returned (translated, detected) =>
       if is_none translated && negb silent
       then after_request s text lang
       else drain net n
              (snd (exec net MainThread (on_success (translated, detected))
                      (after_request s text lang)))
   | Raised _ => after_request s text lang
   end).
Proof. unfold run. rewrite exec_dispatch. now rewrite run_async. Qed.

Lemma nonempty_text_none (translated : pyval) :
  is_none translated = true -> nonempty_text translated = None.
Proof. now destruct translated. Qed.

Lemma run_send {A : Type} (n : nat) (s : plugin) (public : bool) (name text : str)
    (lang : option str) (a : A) :
  snd (run net (S (S n))
         (_async_translate text lang (send_translation (chat public name)) false ;;;
          Ret a) s) =
  match detect_result net s text lang with
  | Returned (translated, _) =>
      match nonempty_text translated with
      | Some out =>
          logged MainThread (send public name (_strip_wrapping_quotes (strip out)))
            (after_request s text lang)
      | None => after_request s text lang
      end
  | Raised _ => after_request s text lang
  end.
Proof.
  rewrite run_dispatch. cbn [snd].
  destruct (after_request_quiescent s text lang) as (Ht & Hq & _).
  destruct (detect_result net s text lang) as [[translated detected]|e];
    [|reflexivity].
  rewrite andb_true_r. destruct (is_none translated) eqn:En.
  - now rewrite nonempty_text_none.
  - rewrite exec_send_translation.
    destruct (nonempty_text translated);
      [now apply logged_quiescent_drain | now apply drain_quiescent].
Qed.

Lemma run_echo {A : Type} (n : nat) (s : plugin) (public : bool)
    (name target last_user text : str) (lang : option str) (a : A) :
  snd (run net (S (S n))
         (_async_translate text lang
            (echo_translation public name target last_user) false ;;;
          Ret a) s) =
  match detect_result net s text lang with
  | Returned (translated, _) =>
      match nonempty_text translated with
      | Some out =>
          logged MainThread
            (echo public name
               (py "[" ++ target ++ py "] " ++ last_user ++ py ": "
                ++ _strip_wrapping_quotes (strip out)))
            (after_request s text lang)
      | None => after_request s text lang
      end
  | Raised _ => after_request s text lang
  end.
Proof.
  rewrite run_dispatch. cbn [snd].
  destruct (after_request_quiescent s text lang) as (Ht & Hq & _).
  destruct (detect_result net s text lang) as [[translated detected]|e];
    [|reflexivity].
  rewrite andb_true_r. destruct (is_none translated) eqn:En.
  - now rewrite nonempty_text_none.
  - rewrite exec_echo_translation.
    destruct (nonempty_text translated);
      [now apply logged_quiescent_drain | now apply drain_quiescent].
Qed.

Lemma outgoing_as_handled (public : bool) (name line : str) :
  outgoing_chat_event public name line =
  (handled <- _handle_outgoing_shortcut line (chat public name) ;;
   if handled : bool then Ret (Some rc_zap) else Ret None).
Proof. now destruct public. Qed.

Lemma outgoing_no_match (public : bool) (name line : str) :
  shortcut_match line = None ->
  outgoing_chat_event public name line = Ret None.
Proof.
  intros H. rewrite outgoing_as_handled, handle_no_match by exact H. reflexivity.
Qed.

Lemma outgoing_text (public : bool) (name line target g2 : str) :
  shortcut_match line = Some (target, g2) ->
  str_falsy (strip g2) = false ->
  outgoing_chat_event public name line =
  (_async_translate (strip g2) (Some target) (send_translation (chat public name))
     false ;;;
   Ret (Some rc_zap)).
Proof.
  intros H Hrest.
  rewrite outgoing_as_handled, (handle_text _ _ _ _ H Hrest). reflexivity.
Qed.

Lemma exec_outgoing_bare (public : bool) (name line target g2 : str) (s : plugin) :
  shortcut_match line = Some (target, g2) ->
  str_falsy (strip g2) = true ->
  exec net MainThread (outgoing_chat_event public name line) (boot s) =
  match remembered public name s with
  | None =>
      (Returned (Some rc_zap),
       logged MainThread (Output (py "No recent message to translate")) (boot s))
  | Some (last_user, last_text) =>
      exec net MainThread
        (_async_translate last_text (Some target)
           (echo_translation public name target last_user) false ;;;
         Ret (Some rc_zap)) (boot s)
  end.
Proof.
  intros H Hrest.
  rewrite outgoing_as_handled, (handle_bare _ _ _ _ _ H Hrest).
  cbn [bind exec self boot].
  destruct (remembered public name s) as [[last_user last_text]|]; reflexivity.
Qed.

Lemma str_falsy_nil (x : str) : str_falsy x = true <-> x = [].
Proof. destruct x; split; intros H; (reflexivity || discriminate). Qed.

(** C7.  For an outgoing public or private line:
    - if the line does not match the shortcut pattern, the handler
      returns [None], so the line is sent as usual, and nothing else
      happens;
    - if it matches, the handler returns [returncode['zap']], which
      suppresses the line;
    - if it matches with trailing text, one translation of that text
      into the captured language is dispatched, and its completion
      sends the translation to the room or peer;
    - if it matches with no trailing text and a last message is
      remembered for the conversation, one translation of the
      remembered text into the captured language is dispatched, and its
      completion echoes the labelled translation locally and sends
      nothing. *)
Theorem shortcut_dispatch (n : nat) (s : plugin) (public : bool) (name line : str) :
  (shortcut_match line = None ->
     run net n (outgoing_chat_event public name line) s = (Returned None, boot s))
  /\ (forall target g2,
        shortcut_match line = Some (target, g2) ->
        fst (run net n (outgoing_chat_event public name line) s)
          = Returned (Some rc_zap)
        /\ (forall text,
              data (request_of s text (Some target)) =
              (py "auth_key", key_of s) :: (py "text", text)
              :: (py "target_lang", target)
              :: (if preserve_formatting (settings s)
                  then [(py "preserve_formatting", py "1")] else []))
        /\ (strip g2 <> [] ->
            snd (run net (S (S n)) (outgoing_chat_event public name line) s) =
            match detect_result net s (strip g2) (Some target) with
            | Returned (translated, _) =>
                match nonempty_text translated with
                | Some out =>
                    logged MainThread
                      (send public name (_strip_wrapping_quotes (strip out)))
                      (after_request s (strip g2) (Some target))
                | None => after_request s (strip g2) (Some target)
                end
            | Raised _ => after_request s (strip g2) (Some target)
            end)
        /\ (forall last_user last_text,
              strip g2 = [] ->
              remembered public name s = Some (last_user, last_text) ->
              snd (run net (S (S n)) (outgoing_chat_event public name line) s) =
              match detect_result net s last_text (Some target) with
              | Returned (translated, _) =>
                  match nonempty_text translated with
                  | Some out =>
                      logged MainThread
                        (echo public name
                           (py "[" ++ target ++ py "] " ++ last_user ++ py ": "
                            ++ _strip_wrapping_quotes (strip out)))
                        (after_request s last_text (Some target))
                  | None => after_request s last_text (Some target)
                  end
              | Raised _ => after_request s last_text (Some target)
              end)).
Proof.
  split.
  - intros H. rewrite (outgoing_no_match _ _ _ H). unfold run. cbn [exec].
    now rewrite drain_quiescent.
  - intros target g2 H. split; [|split; [|split]].
    + rewrite run_fst. destruct (str_falsy (strip g2)) eqn:Hrest.
      * rewrite (exec_outgoing_bare _ _ _ _ _ _ H Hrest).
        now destruct (remembered public name s) as [[last_user last_text]|].
      * now rewrite (outgoing_text _ _ _ _ _ H Hrest).
    + intros text. apply request_of_target.
      apply shortcut_match_shape in H as (c & more & -> & _). discriminate.
    + intros Hrest.
      assert (Hf : str_falsy (strip g2) = false).
      { destruct (str_falsy (strip g2)) eqn:E; [|reflexivity].
        now apply str_falsy_nil in E. }
      rewrite (outgoing_text _ _ _ _ _ H Hf). apply run_send.
    + intros last_user last_text Hrest Hrem.
      apply str_falsy_nil in Hrest.
      rewrite <- (run_echo n s public name target last_user last_text
                    (Some target) (Some rc_zap)).
      rewrite !run_snd. f_equal. f_equal.
      rewrite (exec_outgoing_bare _ _ _ _ _ _ H Hrest), Hrem. reflexivity.
Qed.

End Outgoing.

Lemma shortcut_dispatch_witness :
  shortcut_match (U := ascii_only) (py "@ES buenos dias")
    = Some (py "ES", py "buenos dias")
  /\ shortcut_match (U := ascii_only) (py "@ES") = Some (py "ES", [])
  /\ shortcut_match (U := ascii_only) (py "hello world") = None
  /\ run (fun _ => Json (PDict hallo_payload)) 2
       (outgoing_chat_event (U := ascii_only) true (py "room") (py "hello world"))
       configured_plugin
     = (Returned None, boot configured_plugin)
  /\ fst (run (fun _ => Json (PDict hallo_payload)) 2
            (outgoing_chat_event (U := ascii_only) true (py "room")
               (py "@ES buenos dias"))
            configured_plugin)
     = Returned (Some rc_zap)
  /\ snd (run (fun _ => Json (PDict hallo_payload)) 2
            (outgoing_chat_event (U := ascii_only) true (py "room")
               (py "@ES buenos dias"))
            configured_plugin)
     = {| self := configured_plugin;
          log := [(WorkerThread,
                   Urlopen (request_of (U := ascii_only) configured_plugin
                              (py "buenos dias") (Some (py "ES"))));
                  (MainThread, SendPublic (py "room") (py "Hallo"))];
          threads := [];
          main_queue := [] |}
  /\ snd (run (fun _ => Json (PDict hallo_payload)) 2
            (outgoing_chat_event (U := ascii_only) true (py "room") (py "@ES"))
            bob_in_room)
     = {| self := bob_in_room;
          log := [(WorkerThread,
                   Urlopen (request_of (U := ascii_only) bob_in_room
                              (py "hola") (Some (py "ES"))));
                  (MainThread, EchoPublic (py "room") (py "[ES] bob: Hallo"))];
          threads := [];
          main_queue := [] |}.
Proof.
  split; [reflexivity|]. split; [reflexivity|]. split; [reflexivity|].
  pose proof (shortcut_dispatch (U := ascii_only) (fun _ => Json (PDict hallo_payload))
                0 configured_plugin true (py "room")) as H.
  pose proof (shortcut_dispatch (U := ascii_only) (fun _ => Json (PDict hallo_payload))
                0 bob_in_room true (py "room") (py "@ES")) as Hbare.
  pose proof (shortcut_dispatch (U := ascii_only) (fun _ => Json (PDict hallo_payload))
                2 configured_plugin true (py "room")) as H2.
  split; [|split; [|split]].
  - apply (proj1 (H2 (py "hello world"))). reflexivity.
  - apply (proj2 (H2 (py "@ES buenos dias")) (py "ES") (py "buenos dias")).
    reflexivity.
  - destruct (proj2 (H (py "@ES buenos dias")) (py "ES") (py "buenos dias") eq_refl)
      as (_ & _ & Htext & _).
    rewrite Htext by discriminate. reflexivity.
  - destruct (proj2 Hbare (py "ES") [] eq_refl) as (_ & _ & _ & Hecho).
    rewrite (Hecho (py "bob") (py "hola") eq_refl eq_refl). reflexivity.
Defined.

(** ** The Auto-translate Notifier *)

Section Notifier.
Context {U : Unicode}.
Variable net : request -> response.

Lemma upper_question_mark : upper (py "?") = py "?".
Proof.
  rewrite upper_ascii; [reflexivity|].
  constructor; [|constructor]. reflexivity.
Qed.

Lemma nonempty_text_falsy (v : pyval) : truthy v = false -> nonempty_text v = None.
Proof. destruct v as [| | | |[|c s]| |]; now try discriminate. Qed.

Lemma exec_notify (public : bool) (name target user line translated : str)
    (detected : pyval) (w : world) :
  translated <> [] ->
  truthy detected = false \/ (exists d, detected = PStr d) ->
  snd (exec net MainThread
         (notify public name target user line (PStr translated, detected)) w) =
  if suppressed detected translated line then w
  else logged MainThread
         (echo public name (notice_label detected target user ++ translated)) w.
Proof.
  intros Ht Hd. unfold notify, suppressed, from_english, notice_label.
  destruct translated as [|c t]; [contradiction|]. cbn [truthy str_falsy negb].
  destruct Hd as [Hf | [[|e d] ->]].
  - rewrite Hf, (nonempty_text_falsy _ Hf). cbn [bind orb].
    cbn [py_strip bind py_upper]. rewrite upper_question_mark.
    destruct (str_eqb (strip (c :: t)) (strip line)); [reflexivity|].
    cbn. now rewrite <- !app_assoc.
  - cbn [truthy str_falsy negb nonempty_text bind orb].
    cbn [py_strip bind py_upper]. rewrite upper_question_mark.
    destruct (str_eqb (strip (c :: t)) (strip line)); [reflexivity|].
    cbn. now rewrite <- !app_assoc.
  - cbn [truthy str_falsy negb nonempty_text bind orb]. cbn [py_upper bind].
    destruct (startswith (upper (e :: d)) (py "EN")); [reflexivity|].
    cbn [py_strip bind orb].
    destruct (str_eqb (strip (c :: t)) (strip line)); [reflexivity|].
    cbn. now rewrite <- !app_assoc.
Qed.

Lemma exec_notify_raises (public : bool) (name target user line : str)
    (translated detected : pyval) (w : world) :
  truthy translated = true ->
  truthy detected = true ->
  (forall d, detected <> PStr d) ->
  exec net MainThread (notify public name target user line (translated, detected)) w
  = (Raised AttributeError, w).
Proof.
  intros Ht Hd Hn. unfold notify. rewrite Ht, Hd. cbn [negb].
  destruct detected; try reflexivity. now destruct (Hn s).
Qed.

Lemma exec_notify_falsy (public : bool) (name target user line : str)
    (translated detected : pyval) (w : world) :
  truthy translated = false ->
  exec net MainThread (notify public name target user line (translated, detected)) w
  = (Returned tt, w).
Proof. intros H. unfold notify. now rewrite H. Qed.

Lemma exec_incoming_public (s : plugin) (room user line : str) :
  Some user <> login_username s ->
  auto_translate_incoming (settings s) = true ->
  exec net MainThread (incoming_public_chat_notification room user line) (boot s) =
  exec net MainThread
    (_async_translate line (Some (incoming_target s))
       (notify true room (incoming_target s) user line) true ;;; Ret tt)
    (boot (set_last_public <[room := (user, line)]> s)).
Proof.
  intros Ho Ha. apply is_other_true in Ho.
  unfold incoming_public_chat_notification. cbn [exec self boot].
  rewrite Ho. cbn [bind exec self with_self boot settings set_last_public].
  assert (Ho' : is_other user (set_last_public <[room := (user, line)]> s) = true)
    by exact Ho.
  cbn [set_last_public] in Ho'. rewrite Ha, Ho'. reflexivity.
Qed.

Lemma exec_incoming_private (s : plugin) (user line : str) :
  Some user <> login_username s ->
  auto_translate_incoming (settings s) = true ->
  exec net MainThread (incoming_private_chat_notification user line) (boot s) =
  exec net MainThread
    (_async_translate line (Some (incoming_target s))
       (notify false user (incoming_target s) user line) true ;;; Ret tt)
    (boot (set_last_private <[user := (user, line)]> s)).
Proof.
  intros Ho Ha. apply is_other_true in Ho.
  unfold incoming_private_chat_notification. cbn [exec self boot].
  rewrite Ho. cbn [bind exec self with_self boot settings set_last_private].
  assert (Ho' : is_other user (set_last_private <[user := (user, line)]> s) = true)
    by exact Ho.
  cbn [set_last_private] in Ho'. rewrite Ha, Ho'. reflexivity.
Qed.

(** A run of a notifier's dispatch, from the state [s'] in which the
    line has been remembered. *)
Lemma run_notify (n : nat) (s' : plugin) (public : bool)
    (name target user line : str) :
  snd (run net (S (S n))
         (_async_translate line (Some target)
            (notify public name target user line) true ;;; Ret tt) s') =
  match detect_result net s' line (Some target) with
  | Returned (translated, detected) =>
      drain net n
        (snd (exec net MainThread
                (notify public name target user line (translated, detected))
                (after_request s' line (Some target))))
  | Raised _ => after_request s' line (Some target)
  end.
Proof.
  rewrite run_dispatch. cbn [snd].
  destruct (detect_result net s' line (Some target)) as [[translated detected]|e];
    [|reflexivity].
  now rewrite andb_false_r.
Qed.

End Notifier.

Section NotifierNotice.
Context {U : Unicode}.
Variable net : request -> response.

(** C8, amended.  For an incoming line from another user with
    auto-translate enabled, once the background translation has
    returned a non-empty translated text.  When the detected language
    is a string or a falsy value (absent, null, empty): nothing is
    echoed when the detected language starts with EN in any case, or
    when the translated text equals the line after stripping both;
    otherwise exactly one notice is echoed locally, labelled with the
    detected code in upper case (or [?] when none was detected), the
    target, and the sender.  When the detected language is any other
    value (truthy and not a string) the completion callback raises
    [AttributeError] and nothing is echoed.  Nothing is sent.  When the
    client returns an empty or absent text nothing is echoed at all. *)
Theorem auto_translate_notice (n : nat) (s : plugin) (room user line : str) :
  Some user <> login_username s ->
  auto_translate_incoming (settings s) = true ->
  let target := incoming_target s in
  let in_room := set_last_public <[room := (user, line)]> s in
  let in_private := set_last_private <[user := (user, line)]> s in
  (forall translated detected,
     detect_result net in_room line (Some target) = Returned (PStr translated, detected) ->
     translated <> [] ->
     truthy detected = false \/ (exists d, detected = PStr d) ->
     snd (run net (S (S n)) (incoming_public_chat_notification room user line) s) =
     if suppressed detected translated line
     then after_request in_room line (Some target)
     else logged MainThread
            (EchoPublic room (notice_label detected target user ++ translated))
            (after_request in_room line (Some target)))
  /\ (forall translated detected,
        detect_result net in_private line (Some target)
          = Returned (PStr translated, detected) ->
        translated <> [] ->
        truthy detected = false \/ (exists d, detected = PStr d) ->
        snd (run net (S (S n)) (incoming_private_chat_notification user line) s) =
        if suppressed detected translated line
        then after_request in_private line (Some target)
        else logged MainThread
               (EchoPrivate user (notice_label detected target user ++ translated))
               (after_request in_private line (Some target)))
  /\ (forall translated detected,
        detect_result net in_room line (Some target) = Returned (translated, detected) ->
        truthy translated = false ->
        snd (run net (S (S n)) (incoming_public_chat_notification room user line) s)
        = after_request in_room line (Some target))
  /\ (forall translated detected,
        detect_result net in_private line (Some target)
          = Returned (translated, detected) ->
        truthy translated = false ->
        snd (run net (S (S n)) (incoming_private_chat_notification user line) s)
        = after_request in_private line (Some target))
  /\ (forall translated detected,
        detect_result net in_room line (Some target) = Returned (translated, detected) ->
        truthy translated = true ->
        truthy detected = true ->
        (forall d, detected <> PStr d) ->
        exec net MainThread (notify true room target user line (translated, detected))
          (after_request in_room line (Some target))
        = (Raised AttributeError, after_request in_room line (Some target))
        /\ snd (run net (S (S n)) (incoming_public_chat_notification room user line) s)
           = after_request in_room line (Some target))
  /\ (forall translated detected,
        detect_result net in_private line (Some target)
          = Returned (translated, detected) ->
        truthy translated = true ->
        truthy detected = true ->
        (forall d, detected <> PStr d) ->
        exec net MainThread (notify false user target user line (translated, detected))
          (after_request in_private line (Some target))
        = (Raised AttributeError, after_request in_private line (Some target))
        /\ snd (run net (S (S n)) (incoming_private_chat_notification user line) s)
           = after_request in_private line (Some target)).
Proof.
  intros Ho Ha target in_room in_private.
  assert (Hpub : snd (run net (S (S n))
                        (incoming_public_chat_notification room user line) s)
                 = snd (run net (S (S n))
                          (_async_translate line (Some target)
                             (notify true room target user line) true ;;; Ret tt)
                          in_room)).
  { rewrite !run_snd. now rewrite (exec_incoming_public net s room user line Ho Ha). }
  assert (Hpriv : snd (run net (S (S n))
                         (incoming_private_chat_notification user line) s)
                  = snd (run net (S (S n))
                           (_async_translate line (Some target)
                              (notify false user target user line) true ;;; Ret tt)
                           in_private)).
  { rewrite !run_snd. now rewrite (exec_incoming_private net s user line Ho Ha). }
  rewrite Hpub, Hpriv, !run_notify.
  destruct (after_request_quiescent in_room line (Some target)) as (Ht1 & Hq1 & _).
  destruct (after_request_quiescent in_private line (Some target)) as (Ht2 & Hq2 & _).
  split; [|split; [|split; [|split; [|split]]]].
  - intros translated detected -> Hne Hd. rewrite exec_notify by assumption.
    destruct (suppressed detected translated line);
      [now apply drain_quiescent | now apply logged_quiescent_drain].
  - intros translated detected -> Hne Hd. rewrite exec_notify by assumption.
    destruct (suppressed detected translated line);
      [now apply drain_quiescent | now apply logged_quiescent_drain].
  - intros translated detected -> Hf. rewrite exec_notify_falsy by assumption.
    now apply drain_quiescent.
  - intros translated detected -> Hf. rewrite exec_notify_falsy by assumption.
    now apply drain_quiescent.
  - intros translated detected -> Htr Hd Hn.
    rewrite !exec_notify_raises by assumption.
    split; [reflexivity | now apply drain_quiescent].
  - intros translated detected -> Htr Hd Hn.
    rewrite !exec_notify_raises by assumption.
    split; [reflexivity | now apply drain_quiescent].
Qed.

End NotifierNotice.

Lemma auto_translate_notice_witness :
  Some (py "bob") <> login_username configured_plugin
  /\ auto_translate_incoming (settings configured_plugin) = true
  /\ log (snd (run (fun _ => Json (hola_payload (py "hello"))) 2
                 (incoming_public_chat_notification (U := ascii_only)
                    (py "room") (py "bob") (py "hola"))
                 configured_plugin))
     = [(WorkerThread,
         Urlopen (request_of (U := ascii_only) bob_in_room (py "hola")
                    (Some (py "EN-GB"))));
        (MainThread,
         EchoPublic (py "room")
           (py "[ES" ++ [arrow] ++ py "EN-GB] bob: hello"))].
Proof.
  assert (Ho : Some (py "bob") <> login_username configured_plugin) by discriminate.
  split; [exact Ho|]. split; [reflexivity|].
  rewrite (proj1 (auto_translate_notice (U := ascii_only)
                    (fun _ => Json (hola_payload (py "hello"))) 0
                    configured_plugin (py "room") (py "bob") (py "hola")
                    Ho eq_refl)
             (py "hello") (PStr (py "ES")));
    [reflexivity | reflexivity | discriminate | right; now exists (py "ES")].
Defined.

(** C8, as stated, fails: the provider answers with an empty text and
    the language ES for the line hola.  The language does not start
    with EN and the empty text differs from the line, yet no notice is
    echoed: the run consists of the network call alone. *)
Lemma empty_translation_not_echoed :
  detect_result (U := ascii_only) (fun _ => Json (hola_payload []))
    bob_in_room (py "hola") (Some (py "EN-GB"))
    = Returned (PStr [], PStr (py "ES"))
  /\ suppressed (U := ascii_only) (PStr (py "ES")) [] (py "hola") = false
  /\ snd (run (fun _ => Json (hola_payload [])) 2
            (incoming_public_chat_notification (U := ascii_only)
               (py "room") (py "bob") (py "hola"))
            configured_plugin)
     = {| self := bob_in_room;
          log := [(WorkerThread,
                   Urlopen (request_of (U := ascii_only) bob_in_room (py "hola")
                              (Some (py "EN-GB"))))];
          threads := [];
          main_queue := [] |}.
Proof. repeat split; vm_compute; reflexivity. Qed.

(** The raising case of C8 at a sample: the provider reports the number
    5 as the detected language of the translation hello.  The callback
    raises at the upper-casing of the language, and the run consists of
    the network call alone. *)
Example numeric_language_not_echoed :
  let answer :=
    PDict [(py "translations",
            PList [PDict [(py "text", PStr (py "hello"));
                          (py "detected_source_language", PInt 5)]])] in
  detect_result (U := ascii_only) (fun _ => Json answer)
    bob_in_room (py "hola") (Some (py "EN-GB"))
    = Returned (PStr (py "hello"), PInt 5)
  /\ fst (exec (fun _ => Json answer) MainThread
            (notify (U := ascii_only) true (py "room") (py "EN-GB") (py "bob")
               (py "hola") (PStr (py "hello"), PInt 5))
            (boot bob_in_room))
     = Raised AttributeError
  /\ log (snd (run (fun _ => Json answer) 2
                 (incoming_public_chat_notification (U := ascii_only)
                    (py "room") (py "bob") (py "hola"))
                 configured_plugin))
     = [(WorkerThread,
         Urlopen (request_of (U := ascii_only) bob_in_room (py "hola")
                    (Some (py "EN-GB"))))].
Proof. repeat split; vm_compute; reflexivity. Qed.

Lemma memory_records_others_only_witness :
  _last_public_message
    (self (snd (run (fun _ => NotJson) 2
                  (incoming_public_chat_notification (U := ascii_only)
                     (py "room") (py "bob") (py "hola"))
                  configured_plugin)))
    !! py "room" = Some (py "bob", py "hola")
  /\ self (snd (run (fun _ => NotJson) 2
                  (incoming_private_chat_notification (U := ascii_only)
                     (py "me") (py "hola"))
                  configured_plugin))
     = configured_plugin.
Proof.
  split.
  - refine (proj1 (proj2 (proj1
      (memory_records_others_only (U := ascii_only) (fun _ => NotJson)
         configured_plugin (py "room") (py "bob") (py "hola") _ _
         (run_reaches _ 2 _ _) (run_reaches _ 2 _ _)) _))).
    discriminate.
  - refine (proj2 (proj1 (proj2
      (memory_records_others_only (U := ascii_only) (fun _ => NotJson)
         configured_plugin (py "room") (py "me") (py "hola") _ _
         (run_reaches _ 2 _ _) (run_reaches _ 2 _ _))) _)).
    reflexivity.
Defined.

(** * Further properties of the code *)

(** ** Sequential programs *)

Lemma sequential_leaf {A : Type} (p : prog A) : leaf p -> sequential p.
Proof. destruct p; simpl; try contradiction; auto. Qed.

Lemma sequential_bind {A B : Type} (p : prog A) (f : A -> prog B) :
  sequential p -> (forall a, sequential (f a)) -> sequential (bind p f).
Proof. intros Hp Hf. induction p; simpl in *; auto; try contradiction. Qed.

Section Sequential.
Context {U : Unicode}.
Variable net : request -> response.

(** A sequential program leaves the plugin and the pending work alone
    and logs all its effects on the thread it runs on. *)
Lemma exec_sequential {A : Type} (p : prog A) (t : thread) (w : world) :
  sequential p ->
  self (snd (exec net t p w)) = self w
  /\ threads (snd (exec net t p w)) = threads w
  /\ main_queue (snd (exec net t p w)) = main_queue w
  /\ exists es, log (snd (exec net t p w)) = log w ++ map (pair t) es.
Proof.
  revert w.
  induction p as [A a|A e|A e k IH|A req k IH|A k IH|A s k IH|A wk _ k IH|A cb _ k IH];
    intros w Hp; simpl in *; try contradiction.
  - repeat split; auto. exists []. now rewrite app_nil_r.
  - repeat split; auto. exists []. now rewrite app_nil_r.
  - destruct (IH (logged t e w) Hp) as (Hs & Ht & Hq & es & Hl).
    repeat split; auto. exists (e :: es). rewrite Hl. cbn. now rewrite <- app_assoc.
  - destruct (IH (net req) (logged t (Urlopen req) w) (Hp _)) as (Hs & Ht & Hq & es & Hl).
    repeat split; auto. exists (Urlopen req :: es). rewrite Hl. cbn.
    now rewrite <- app_assoc.
  - apply IH, Hp.
Qed.

Lemma sequential_provider_error (payload : pyval) : sequential (provider_error payload).
Proof. apply sequential_leaf, leaf_provider_error. Qed.

Lemma sequential_via_deepl (text : str) (lang : option str) :
  sequential (_translate_via_deepl text lang).
Proof.
  unfold _translate_via_deepl. intros s.
  destruct (str_falsy _); [exact I|]. intros [err| |payload]; try exact I.
  apply sequential_bind; [apply sequential_provider_error|].
  intros [m|]; [exact I|].
  apply sequential_bind; [apply sequential_leaf, leaf_py_get|]. intros tr.
  destruct (negb (truthy tr)); [exact I|].
  apply sequential_bind; [apply sequential_leaf, leaf_py_item0|]. intros first.
  apply sequential_leaf, leaf_py_get.
Qed.

End Sequential.

Ltac sequence :=
  repeat (cbn [sequential bind do];
          match goal with
          | |- True => exact I
          | |- _ /\ _ => split
          | |- forall _, _ => intros ?
          | |- sequential (_translate_via_deepl _ _) => apply sequential_via_deepl
          | |- sequential (py_strip _) => apply sequential_leaf, leaf_py_strip
          | |- sequential (bind _ _) => apply sequential_bind
          | |- sequential (if ?b then _ else _) => destruct b
          | |- sequential (match ?x with _ => _ end) => destruct x
          | |- sequential (let '(_, _) := ?x in _) => destruct x
          end).

Section CommandFacts.
Context {U : Unicode}.
Variable net : request -> response.

Lemma sequential_translate_command (args : str) (user room : option str) :
  sequential (translate_command args user room).
Proof.
  unfold translate_command, version_command, translate_help_command. sequence.
Qed.

(** X1.  The translate command runs entirely on the thread that calls
    it: whatever the arguments and the provider's answer, it starts no
    worker, posts no callback and leaves settings and memory as they
    were, and each of its effects, the network call included, is logged
    on the calling (main) thread. *)
Theorem translate_command_is_synchronous (n : nat) (s : plugin) (args : str)
    (user room : option str) :
  self (snd (run net n (translate_command args user room) s)) = s
  /\ threads (snd (run net n (translate_command args user room) s)) = []
  /\ main_queue (snd (run net n (translate_command args user room) s)) = []
  /\ Forall (fun entry => fst entry = MainThread)
       (log (snd (run net n (translate_command args user room) s))).
Proof.
  rewrite run_snd.
  destruct (exec_sequential net (translate_command args user room) MainThread (boot s)
              (sequential_translate_command args user room))
    as (Hs & Ht & Hq & es & Hl).
  rewrite drain_quiescent by assumption.
  repeat split; try assumption.
  rewrite Hl. cbn. apply List.Forall_forall. intros entry Hin.
  apply in_map_iff in Hin as (e & <- & _). reflexivity.
Qed.

End CommandFacts.

Section ClientFacts.
Context {U : Unicode}.
Variable net : request -> response.

Lemma exec_via_deepl_success (t : thread) (w : world) (text : str)
    (lang : option str) (d o : list (str * pyval)) (more : list pyval) :
  str_falsy (key_of (self w)) = false ->
  net (request_of (self w) text lang) = Json (PDict d) ->
  message_is_text d ->
  error_signalled d = false ->
  lookup_key (py "translations") d = Some (PList (PDict o :: more)) ->
  exec net t (_translate_via_deepl text lang) w =
  (Returned (field (py "text") (PStr []) o),
   logged t (Urlopen (request_of (self w) text lang)) w).
Proof.
  intros Hkey Hnet Hmsg Herr Htr.
  rewrite (exec_via_deepl_json net t w text lang _ Hkey Hnet).
  rewrite (provider_error_dict d Hmsg), Herr. cbn. rewrite Htr. reflexivity.
Qed.

(** X3.  The user-facing client tells the user about each failure with
    exactly one message and returns [None]: a transport failure is
    reported with its cause, a body that is not JSON generically, a
    provider error with the provider's message, and an empty, absent or
    otherwise falsy translations entry generically.  A success is
    returned without any message. *)
Theorem user_client_reports_each_failure (t : thread) (w : world) (text : str)
    (lang : option str) :
  str_falsy (key_of (self w)) = false ->
  let req := request_of (self w) text lang in
  let called := logged t (Urlopen req) w in
  let via := exec net t (_translate_via_deepl text lang) w in
  (forall cause, net req = Failed cause ->
     via = (Returned PNone,
            logged t (Output (py "DeepL request failed: " ++ cause)) called))
  /\ (net req = NotJson ->
      via = (Returned PNone,
             logged t (Output (py "Failed to parse DeepL response")) called))
  /\ (forall d m, net req = Json (PDict d) ->
        lookup_key (py "message") d = Some (PStr m) ->
        contains (py "error") (lower m) = true ->
        via = (Returned PNone, logged t (Output (py "DeepL error: " ++ m)) called))
  /\ (forall d, net req = Json (PDict d) ->
        message_is_text d -> error_signalled d = false ->
        truthy (field (py "translations") PNone d) = false ->
        via = (Returned PNone,
               logged t (Output (py "DeepL returned no translations")) called))
  /\ (forall d o more, net req = Json (PDict d) ->
        message_is_text d -> error_signalled d = false ->
        lookup_key (py "translations") d = Some (PList (PDict o :: more)) ->
        via = (Returned (field (py "text") (PStr []) o), called)).
Proof.
  intros Hkey req called via. subst via called req.
  split; [|split; [|split; [|split]]].
  - intros cause Hnet. unfold _translate_via_deepl. cbn [exec].
    fold (key_of (self w)). rewrite Hkey.
    fold (request_of (self w) text lang). cbn [exec]. now rewrite Hnet.
  - intros Hnet. unfold _translate_via_deepl. cbn [exec].
    fold (key_of (self w)). rewrite Hkey.
    fold (request_of (self w) text lang). cbn [exec]. now rewrite Hnet.
  - intros d m Hnet Hm Herr.
    rewrite (exec_via_deepl_json net t w text lang _ Hkey Hnet).
    rewrite (provider_error_dict d) by (unfold message_is_text; now rewrite Hm).
    unfold error_signalled. rewrite Hm, Herr. reflexivity.
  - intros d Hnet Hmsg Herr Htr.
    rewrite (exec_via_deepl_json net t w text lang _ Hkey Hnet).
    rewrite (provider_error_dict d Hmsg), Herr. cbn [bind py_get].
    unfold field in Htr. rewrite Htr. reflexivity.
  - intros d o more. now apply exec_via_deepl_success.
Qed.

(** X4.  A payload that is valid JSON but not an object is not turned
    into a failure result: both clients raise ([AttributeError], or
    [TypeError] where the user-facing client tests the payload for a
    message), the user is told nothing, and a dispatched translation
    then never invokes its callback, not even a silent one. *)
Theorem non_object_payload_raises (s : plugin) (text : str) (lang : option str)
    (payload : pyval) :
  str_falsy (key_of s) = false ->
  net (request_of s text lang) = Json payload ->
  (forall d, payload <> PDict d) ->
  exec net WorkerThread (_translate_and_detect text lang) (boot s)
    = (Raised AttributeError, after_request s text lang)
  /\ (exists e, (e = TypeError \/ e = AttributeError)
        /\ exec net MainThread (_translate_via_deepl text lang) (boot s)
           = (Raised e, logged MainThread (Urlopen (request_of s text lang)) (boot s)))
  /\ (forall on_success silent n,
        snd (run net (S (S n)) (_async_translate text lang on_success silent) s)
        = after_request s text lang).
Proof.
  intros Hkey Hnet Hobj.
  assert (Hdet : exec net WorkerThread (_translate_and_detect text lang) (boot s)
                 = (Raised AttributeError, after_request s text lang)).
  { unfold after_request. rewrite Hkey.
    unfold _translate_and_detect. cbn [exec self boot].
    fold (key_of s). rewrite Hkey. fold (request_of s text lang). cbn [exec].
    rewrite Hnet. destruct payload; try reflexivity. now destruct (Hobj d). }
  split; [exact Hdet|]. split.
  - change (boot s) with (boot (self (boot s))) at 2.
    rewrite (exec_via_deepl_json net MainThread (boot s) text lang payload Hkey Hnet).
    cbn [self boot].
    destruct payload as [|b|z|f|p|l|d]; try (exists TypeError; split; [now left|reflexivity]).
    + unfold provider_error. cbn [py_in bind].
      destruct (contains (py "message") p);
        exists AttributeError; (split; [now right|reflexivity]).
    + unfold provider_error. cbn [py_in bind].
      destruct (existsb _ l);
        exists AttributeError; (split; [now right|reflexivity]).
    + now destruct (Hobj d).
  - intros on_success silent n. unfold run, _async_translate. cbn [exec].
    change (with_threads _ (boot s))
      with (with_threads [worker text lang on_success silent] (boot s)).
    rewrite run_async. unfold detect_result. now rewrite Hdet.
Qed.

Lemma str_or_nonempty (a b : str) : b <> [] -> str_or a b <> [].
Proof. destruct a; cbn; [auto|discriminate]. Qed.

(** The request the clients build. *)
Lemma build_request_params (s : settings_t) (key text : str)
    (lang : option str) :
  let r := build_request s key text lang in
  url r = DEEPL_API_URL
  /\ timeout r = 15%Z
  /\ content_type r = py "application/x-www-form-urlencoded"
  /\ param (py "auth_key") r = Some key
  /\ param (py "text") r = Some text
  /\ param (py "target_lang") r
     = Some (match lang with
             | Some (c :: l) => c :: l
             | _ => match target_lang s with
                    | c :: l => c :: l
                    | [] => py "EN-US"
                    end
             end)
  /\ (exists target, param (py "target_lang") r = Some target /\ target <> [])
  /\ param (py "preserve_formatting") r
     = (if preserve_formatting s then Some (py "1") else None).
Proof.
  intros r. subst r. unfold param, build_request. cbn [url timeout content_type data].
  assert (Htl : str_or (from_option id [] lang) (str_or (target_lang s) (py "EN-US"))
                = match lang with
                  | Some (c :: l) => c :: l
                  | _ => match target_lang s with
                         | c :: l => c :: l
                         | [] => py "EN-US"
                         end
                  end).
  { destruct lang as [[|c l]|]; cbn; try reflexivity; now destruct (target_lang s). }
  assert (Hne : str_or (from_option id [] lang) (str_or (target_lang s) (py "EN-US"))
                <> []).
  { apply str_or_nonempty, str_or_nonempty. discriminate. }
  repeat split; try (destruct (preserve_formatting s); reflexivity).
  - destruct (preserve_formatting s); cbn [app assoc_str];
      change (str_eqb (py "auth_key") (py "target_lang")) with false;
      change (str_eqb (py "text") (py "target_lang")) with false;
      change (str_eqb (py "target_lang") (py "target_lang")) with true;
      cbn iota; now rewrite Htl.
  - eexists. split; [|exact Hne].
    destruct (preserve_formatting s); reflexivity.
Qed.

End ClientFacts.

(** ** Which lines the shortcut intercepts *)

Lemma try_down_is_some {R : Type} (f : nat -> option R) (lo n k : nat) :
  (lo <= k <= n)%nat -> is_Some (f k) -> is_Some (try_down f lo n).
Proof.
  intros Hk Hf. induction n as [|n IH]; simpl.
  - assert (k = 0%nat) as -> by lia.
    destruct (0 <? lo)%nat eqn:E; [apply Nat.ltb_lt in E; lia|].
    destruct Hf as [r ->]. now exists r.
  - destruct (S n <? lo)%nat eqn:E; [apply Nat.ltb_lt in E; lia|].
    destruct (f (S n)) as [r|] eqn:Ef; [now exists r|].
    apply IH. destruct (decide (k = S n)) as [->|Hne]; [|lia].
    rewrite Ef in Hf. now destruct Hf.
Qed.

Lemma run_length_app (cls : char -> bool) (a b : str) :
  forallb cls a = true -> (length a <= run_length cls (a ++ b))%nat.
Proof.
  induction a as [|c a IH]; simpl; [lia|].
  intros H. apply andb_true_iff in H as (Hc & Ha). rewrite Hc.
  specialize (IH Ha). lia.
Qed.

Lemma run_length_cut (cls : char -> bool) (s : str) (k : nat) :
  (k <= run_length cls s)%nat ->
  s = take k s ++ drop k s /\ forallb cls (take k s) = true.
Proof.
  intros Hk. split; [now rewrite take_drop|]. now apply run_length_take.
Qed.

Section Interception.
Context {U : Unicode}.
Variable net : request -> response.

(** A line the shortcut pattern matches consists of blanks, the at
    sign, the captured token, blanks, the captured text, which has no
    line break, and at most one final line break. *)
Lemma shortcut_match_decomposes (line target g2 : str) :
  shortcut_match line = Some (target, g2) ->
  exists ws ws2 tail,
    line = ws ++ at_sign :: target ++ ws2 ++ g2 ++ tail
    /\ forallb isspace ws = true
    /\ forallb isspace ws2 = true
    /\ forallb not_newline g2 = true
    /\ (tail = [] \/ tail = [newline]).
Proof.
  unfold shortcut_match, shortcut_re. cbn [rmatch Nat.eqb].
  destruct (try_down _ _ _) as [marks|] eqn:E0; [|discriminate].
  apply try_down_some in E0 as (n0 & Hn0 & E1).
  destruct (run_length_cut isspace line n0) as (Hline & Hws); [lia|].
  generalize dependent (take n0 line). intros ws Hline Hws.
  generalize dependent (drop n0 line). intros s0 E1 Hline.
  apply try_down_some in E1 as (n1 & Hn1 & E2).
  assert (n1 = 1%nat) as -> by lia.
  destruct s0 as [|c0 s1]; [cbn [run_length] in Hn1; lia|].
  assert (Hc0 : c0 = at_sign).
  { cbn [run_length] in Hn1. destruct (N.eqb at_sign c0) eqn:Ec; [|lia].
    now apply N.eqb_eq in Ec. }
  subst c0. change (drop 1 (at_sign :: s1)) with s1 in E2.
  apply try_down_some in E2 as (n2 & Hn2 & E3).
  assert (n2 = 1%nat) as -> by lia.
  apply try_down_some in E3 as (n3 & Hn3 & E4).
  apply try_down_some in E4 as (n4 & Hn4 & E5).
  apply try_down_some in E5 as (n5 & Hn5 & E6).
  destruct (at_eol _) eqn:Eeol; [|discriminate]. injection E6 as <-.
  cbn [group mark Bool.eqb andb Nat.eqb].
  destruct (run_length_take ascii_isalpha s1 1) as (_ & Hl2); [lia|].
  destruct (run_length_take lang_class (drop 1 s1) n3) as (_ & Hl3); [lia|].
  destruct (run_length_cut isspace (drop n3 (drop 1 s1)) n4) as (Hs3 & Hws2); [lia|].
  destruct (run_length_cut not_newline (drop n4 (drop n3 (drop 1 s1))) n5)
    as (Hs4 & Hg2); [lia|].
  rewrite !length_drop.
  rewrite length_take in Hl2, Hl3. rewrite length_drop in Hl3.
  assert (Hn5' : (n5 <= length s1 - 1 - n3 - n4)%nat).
  { destruct (run_length_take not_newline (drop n4 (drop n3 (drop 1 s1))) n5)
      as (_ & Hl5); [lia|].
    rewrite length_take, !length_drop in Hl5. lia. }
  assert (Hn4' : (n4 <= length s1 - 1 - n3)%nat).
  { destruct (run_length_take isspace (drop n3 (drop 1 s1)) n4) as (_ & Hl4); [lia|].
    rewrite length_take, !length_drop in Hl4. lia. }
  replace (length s1 - (length s1 - 1 - n3))%nat with (1 + n3)%nat by lia.
  replace (length s1 - 1 - n3 - n4 - (length s1 - 1 - n3 - n4 - n5))%nat
    with n5 by lia.
  intros [= <- <-].
  exists ws, (take n4 (drop n3 (drop 1 s1))),
    (drop n5 (drop n4 (drop n3 (drop 1 s1)))).
  split; [|split; [exact Hws|split; [exact Hws2|split; [exact Hg2|]]]].
  - rewrite Hline. f_equal. f_equal.
    rewrite <- Hs4, <- Hs3, drop_drop. now rewrite take_drop.
  - destruct (drop n5 _) as [|c [|c' t]]; cbn in Eeol; try discriminate.
    + now left.
    + right. apply N.eqb_eq in Eeol. now subst.
Qed.

(** Conversely every line made of blanks, the at sign, an ASCII
    letter, one more ASCII letter, hyphen or underscore, and any text
    without a line break is matched by the pattern. *)
Lemma shortcut_match_complete (ws rest : str) (c c2 : char) :
  forallb isspace ws = true ->
  ascii_isalpha c = true ->
  lang_class c2 = true ->
  forallb not_newline rest = true ->
  is_Some (shortcut_match (ws ++ at_sign :: c :: c2 :: rest)).
Proof.
  intros Hws Hc Hc2 Hrest.
  assert (Hm : is_Some (rmatch shortcut_re 0 (ws ++ at_sign :: c :: c2 :: rest) [])).
  { unfold shortcut_re. cbn [rmatch Nat.eqb].
    apply (try_down_is_some _ _ _ (length ws));
      [split; [lia|now apply run_length_app]|].
    rewrite drop_app_length.
    apply (try_down_is_some _ _ _ 1%nat).
    { cbn. lia. }
    change (drop 1 (at_sign :: c :: c2 :: rest)) with (c :: c2 :: rest).
    apply (try_down_is_some _ _ _ 1%nat).
    { cbn. rewrite Hc. lia. }
    change (drop 1 (c :: c2 :: rest)) with (c2 :: rest).
    apply (try_down_is_some _ _ _ 1%nat).
    { cbn [run_length]. rewrite Hc2. lia. }
    change (drop 1 (c2 :: rest)) with rest.
    apply (try_down_is_some _ _ _ 0%nat); [lia|].
    change (drop 0 rest) with rest.
    apply (try_down_is_some _ _ _ (length rest)).
    { split; [lia|]. rewrite <- (app_nil_r rest) at 2. now apply run_length_app. }
    rewrite drop_all. cbn. eexists. reflexivity. }
  destruct Hm as [marks Hm].
  destruct (shortcut_match (ws ++ at_sign :: c :: c2 :: rest)) as [r|] eqn:E;
    [now exists r|].
  exfalso. revert E. unfold shortcut_match. rewrite Hm. clear Hws Hrest.
  revert Hm. unfold shortcut_re. cbn [rmatch Nat.eqb]. intros Hm.
  apply try_down_some in Hm as (n0 & _ & E1).
  apply try_down_some in E1 as (n1 & _ & E2).
  apply try_down_some in E2 as (n2 & _ & E3).
  apply try_down_some in E3 as (n3 & _ & E4).
  apply try_down_some in E4 as (n4 & _ & E5).
  apply try_down_some in E5 as (n5 & _ & E6).
  destruct (at_eol _); [|discriminate]. injection E6 as <-.
  cbn [group mark Bool.eqb andb Nat.eqb]. discriminate.
Qed.

(** What an outgoing handler returns depends on the match alone. *)
Lemma outgoing_returns (n : nat) (s : plugin) (public : bool) (name line : str) :
  fst (run net n (outgoing_chat_event public name line) s) =
  Returned (match shortcut_match line with
            | Some _ => Some rc_zap
            | None => None
            end).
Proof.
  rewrite run_fst. destruct (shortcut_match line) as [[target g2]|] eqn:H.
  - destruct (str_falsy (strip g2)) eqn:Hrest.
    + rewrite (exec_outgoing_bare net _ _ _ _ _ _ H Hrest).
      now destruct (remembered public name s) as [[last_user last_text]|].
    + now rewrite (outgoing_text _ _ _ _ _ H Hrest).
  - now rewrite (outgoing_no_match _ _ _ H).
Qed.

(** X6.  An outgoing line is suppressed only if it consists of blanks,
    the at sign, a token of two to ten ASCII letters, hyphens or
    underscores, blanks, a text without line break, and at most one
    final line break.  In particular a line whose first non-blank
    character is not the at sign is never suppressed. *)
Theorem suppressed_line_shape (n : nat) (s : plugin) (public : bool)
    (name line : str) :
  fst (run net n (outgoing_chat_event public name line) s) = Returned (Some rc_zap) ->
  exists ws target ws2 text tail,
    line = ws ++ at_sign :: target ++ ws2 ++ text ++ tail
    /\ forallb isspace ws = true
    /\ (2 <= length target <= 10)%nat
    /\ forallb lang_class target = true
    /\ forallb isspace ws2 = true
    /\ forallb not_newline text = true
    /\ (tail = [] \/ tail = [newline]).
Proof.
  rewrite outgoing_returns.
  destruct (shortcut_match line) as [[target g2]|] eqn:H; [|discriminate].
  intros _.
  destruct (shortcut_match_decomposes _ _ _ H) as (ws & ws2 & tail & Hl & Hws & Hws2 & Hg & Ht).
  destruct (shortcut_match_shape _ _ _ H) as (c & more & -> & Hc & Hlen & Hmore).
  exists ws, (c :: more), ws2, g2, tail.
  repeat split; try assumption; cbn [length]; try lia.
  cbn [forallb]. unfold lang_class at 1. now rewrite Hc, Hmore.
Qed.

(** X7.  Every outgoing line made of blanks, the at sign, an ASCII
    letter, one more ASCII letter, hyphen or underscore, and any text
    without a line break is suppressed, in a room and in a private
    chat, whatever the plugin's state and whatever the provider
    answers. *)
Theorem shortcut_line_is_suppressed (n : nat) (s : plugin) (public : bool)
    (name ws rest : str) (c c2 : char) :
  forallb isspace ws = true ->
  ascii_isalpha c = true ->
  lang_class c2 = true ->
  forallb not_newline rest = true ->
  fst (run net n (outgoing_chat_event public name (ws ++ at_sign :: c :: c2 :: rest)) s)
  = Returned (Some rc_zap).
Proof.
  intros Hws Hc Hc2 Hrest. rewrite outgoing_returns.
  destruct (shortcut_match_complete ws rest c c2 Hws Hc Hc2 Hrest) as [r ->].
  reflexivity.
Qed.

(** X8.  A bare shortcut typed where no message is remembered is
    suppressed all the same: the only thing that happens is the local
    message that there is nothing to translate; no translation is
    requested. *)
Theorem bare_shortcut_without_memory (n : nat) (s : plugin) (public : bool)
    (name line target g2 : str) :
  shortcut_match line = Some (target, g2) ->
  strip g2 = [] ->
  remembered public name s = None ->
  run net n (outgoing_chat_event public name line) s =
  (Returned (Some rc_zap),
   logged MainThread (Output (py "No recent message to translate")) (boot s)).
Proof.
  intros H Hrest Hrem. apply str_falsy_nil in Hrest. unfold run.
  rewrite (exec_outgoing_bare net _ _ _ _ _ _ H Hrest), Hrem.
  now rewrite drain_quiescent.
Qed.

(** X9.  When the translation of a shortcut's text fails, because the
    API key is blank, the request fails or the body is not JSON, the
    typed line is lost without a word: it was suppressed, nothing is
    sent in its place, and nothing is reported to the user. *)
Theorem failed_shortcut_is_dropped (n : nat) (s : plugin) (public : bool)
    (name line target g2 : str) :
  shortcut_match line = Some (target, g2) ->
  strip g2 <> [] ->
  str_falsy (key_of s) = true
  \/ (exists cause, net (request_of s (strip g2) (Some target)) = Failed cause)
  \/ net (request_of s (strip g2) (Some target)) = NotJson ->
  run net (S (S n)) (outgoing_chat_event public name line) s =
  (Returned (Some rc_zap), after_request s (strip g2) (Some target))
  /\ Forall (fun entry => is_network_call entry = true)
       (log (after_request s (strip g2) (Some target))).
Proof.
  intros H Hrest Hfail.
  assert (Hf : str_falsy (strip g2) = false).
  { destruct (str_falsy (strip g2)) eqn:E; [|reflexivity].
    now apply str_falsy_nil in E. }
  assert (Hres : detect_result net s (strip g2) (Some target) = Returned (PNone, PNone)).
  { unfold detect_result, _translate_and_detect. cbn [exec self boot].
    fold (key_of s). destruct (str_falsy (key_of s)) eqn:Hk; [reflexivity|].
    fold (request_of s (strip g2) (Some target)). cbn [exec].
    destruct Hfail as [Hfail|[[cause Hfail]|Hfail]];
      [discriminate | now rewrite Hfail | now rewrite Hfail]. }
  split.
  - apply injective_projections.
    + rewrite run_fst, (outgoing_text _ _ _ _ _ H Hf). reflexivity.
    + rewrite (outgoing_text _ _ _ _ _ H Hf), run_send, Hres. reflexivity.
  - unfold after_request. destruct (str_falsy (key_of s)); repeat constructor.
Qed.

End Interception.

(** ** How the handlers compose *)

Section Composition.
Context {U : Unicode}.
Variable net : request -> response.


Lemma run_incoming_idle (n : nat) (s : plugin) (room user line : str) :
  auto_translate_incoming (settings s) = false \/ Some user = login_username s ->
  run net n (incoming_public_chat_notification room user line) s =
    (Returned tt,
     boot (if is_other user s
           then set_last_public <[room := (user, line)]> s else s))
  /\ run net n (incoming_private_chat_notification user line) s =
    (Returned tt,
     boot (if is_other user s
           then set_last_private <[user := (user, line)]> s else s)).
Proof.
  intros Hoff. unfold run.
  unfold incoming_public_chat_notification, incoming_private_chat_notification.
  cbn [exec self boot].
  destruct (is_other user s) eqn:Eo; cbn [bind exec self with_self boot].
  - destruct Hoff as [Hoff|Hme]; [|apply is_other_true in Eo; contradiction].
    cbn [settings set_last_public set_last_private]. rewrite Hoff. cbn [negb exec].
    now rewrite !drain_quiescent.
  - destruct (auto_translate_incoming (settings s)); cbn [negb exec];
      rewrite ?Eo; cbn [negb exec]; now rewrite !drain_quiescent.
Qed.

(** X11.  With auto-translate switched off, or for a line of the local
    user, an incoming line starts nothing: no thread, no network call,
    no message.  All that may happen is that the line is remembered. *)
Theorem incoming_without_translation (n : nat) (s : plugin) (room user line : str) :
  auto_translate_incoming (settings s) = false \/ Some user = login_username s ->
  run net n (incoming_public_chat_notification room user line) s =
    (Returned tt,
     boot (if is_other user s
           then set_last_public <[room := (user, line)]> s else s))
  /\ run net n (incoming_private_chat_notification user line) s =
    (Returned tt,
     boot (if is_other user s
           then set_last_private <[user := (user, line)]> s else s)).
Proof. apply run_incoming_idle. Qed.

End Composition.

(** ** One request and one message at most *)

Lemma says_at_most_leaf {A : Type} (k : nat) (p : prog A) : leaf p -> says_at_most k p.
Proof. destruct p; simpl; try contradiction; auto. Qed.

Lemma says_at_most_bind_leaf {A B : Type} (k : nat) (p : prog A) (f : A -> prog B) :
  leaf p -> (forall a, says_at_most k (f a)) -> says_at_most k (bind p f).
Proof. destruct p; simpl; try contradiction; auto. Qed.

Lemma extend_nil (w : world) : extend w [] = w.
Proof. destruct w. unfold extend. cbn. now rewrite app_nil_r. Qed.

Lemma extend_extend (w : world) (a b : list (thread * effect)) :
  extend (extend w a) b = extend w (a ++ b).
Proof. unfold extend. cbn. now rewrite app_assoc. Qed.

Ltac says :=
  repeat (cbn [says_at_most bind do];
          match goal with
          | |- True => exact I
          | |- leaf (Ret _) => exact I
          | |- leaf (Raise _) => exact I
          | |- _ = _ => reflexivity
          | |- _ /\ _ => split
          | |- forall _, _ => intros ?
          | |- leaf (py_strip _) => apply leaf_py_strip
          | |- leaf (py_upper _) => apply leaf_py_upper
          | |- leaf (bind _ _) => apply leaf_bind
          | |- leaf (if ?b then _ else _) => destruct b
          | |- says_at_most _ (bind _ _) => apply says_at_most_bind_leaf
          | |- says_at_most _ (if ?b then _ else _) => destruct b
          | |- says_at_most _ (match ?x with _ => _ end) => destruct x
          end).

Section Bounded.
Context {U : Unicode}.
Variable net : request -> response.

Lemma exec_says_at_most {A : Type} (k : nat) (p : prog A) (t : thread) (w : world) :
  says_at_most k p ->
  exists es, (length es <= k)%nat
    /\ Forall (fun e => touches_ui e = true) es
    /\ snd (exec net t p w) = extend w (map (pair t) es).
Proof.
  revert k w.
  induction p as [A a|A e|A e p IH|A req f IH|A f IH|A s p IH|A wk _ p IH|A cb _ p IH];
    intros k w Hp; simpl in Hp; try contradiction.
  - exists []. split; [cbn; lia|]. split; [constructor|].
    cbn [map exec snd]. now rewrite extend_nil.
  - exists []. split; [cbn; lia|]. split; [constructor|].
    cbn [map exec snd]. now rewrite extend_nil.
  - destruct Hp as (He & Hp). destruct k as [|k]; [contradiction|].
    destruct (IH k (logged t e w) Hp) as (es & Hlen & Hui & Hw).
    exists (e :: es). cbn [length map exec]. split; [lia|].
    split; [now constructor|]. rewrite Hw.
    change (logged t e w) with (extend w [(t, e)]). now rewrite extend_extend.
  - apply IH, Hp.
Qed.

Lemma says_send_translation (context : str * str) (result : pyval * pyval) :
  says_at_most 1 (send_translation context result).
Proof. unfold send_translation. destruct result. says. Qed.

Lemma says_echo_translation (public : bool) (name target last_user : str)
    (result : pyval * pyval) :
  says_at_most 1 (echo_translation public name target last_user result).
Proof. unfold echo_translation, echo. destruct result, public; says. Qed.

Lemma says_notify (public : bool) (name target user line : str)
    (result : pyval * pyval) :
  says_at_most 1 (notify public name target user line result).
Proof. unfold notify, echo. destruct result, public; says. Qed.

Lemma settled_boot (s : plugin) : settled_after_one (boot s).
Proof. repeat split; cbn; lia. Qed.

Lemma settled_after_request (s : plugin) (text : str) (lang : option str)
    (es : list effect) :
  (length es <= 1)%nat ->
  Forall (fun e => touches_ui e = true) es ->
  settled_after_one (extend (after_request s text lang) (map (pair MainThread) es)).
Proof.
  intros Hlen Hui. destruct (after_request_quiescent s text lang) as (Ht & Hq & _).
  split; [exact Ht|]. split; [exact Hq|].
  destruct es as [|e [|e' es]]; [| |cbn in Hlen; lia].
  - cbn [extend log map]. rewrite app_nil_r. unfold after_request.
    destruct (str_falsy (key_of s)); cbn; lia.
  - apply Forall_inv in Hui. cbn [extend log map].
    rewrite !List.filter_app. rewrite !length_app.
    assert (Hc : is_network_call (MainThread, e) = false) by now destruct e.
    cbn [List.filter]. rewrite Hc. cbn [negb length].
    unfold after_request. destruct (str_falsy (key_of s)); cbn; lia.
Qed.

(** A run that consists of one dispatch whose callback says at most
    one thing. *)
Lemma dispatch_settles {A : Type} (n : nat) (text : str) (lang : option str)
    (on_success : pyval * pyval -> prog unit) (silent : bool) (a : A) (s : plugin) :
  (forall result, says_at_most 1 (on_success result)) ->
  settled_after_one
    (snd (run net (S (S n)) (_async_translate text lang on_success silent ;;; Ret a) s)).
Proof.
  intros Hcb. rewrite run_dispatch. cbn [snd].
  assert (H0 : settled_after_one (after_request s text lang)).
  { rewrite <- (extend_nil (after_request s text lang)).
    apply (settled_after_request s text lang []); [cbn; lia|constructor]. }
  destruct (detect_result net s text lang) as [[translated detected]|e]; [|exact H0].
  destruct (is_none translated && negb silent); [exact H0|].
  destruct (exec_says_at_most 1 (on_success (translated, detected)) MainThread
              (after_request s text lang) (Hcb _)) as (es & Hlen & Hui & ->).
  pose proof (settled_after_request s text lang es Hlen Hui) as Hs.
  rewrite drain_quiescent; [exact Hs|apply Hs|apply Hs].
Qed.

(** X12.  No chat event is answered with more than one network request
    or more than one effect on the chat UI, and each one ends: once the
    worker and the callback have had their turn, no thread and no
    callback is pending, whatever the provider answered. *)
Theorem one_request_one_message (n : nat) (s : plugin) (name user line : str)
    (public : bool) :
  settled_after_one (snd (run net (S (S n)) (outgoing_chat_event public name line) s))
  /\ settled_after_one
       (snd (run net (S (S n)) (incoming_public_chat_notification name user line) s))
  /\ settled_after_one
       (snd (run net (S (S n)) (incoming_private_chat_notification user line) s)).
Proof.
  split; [|split].
  - destruct (shortcut_match line) as [[target g2]|] eqn:H.
    + destruct (str_falsy (strip g2)) eqn:Hrest.
      * rewrite run_snd, (exec_outgoing_bare net _ _ _ _ _ _ H Hrest).
        destruct (remembered public name s) as [[last_user last_text]|].
        -- rewrite <- run_snd. apply dispatch_settles. apply says_echo_translation.
        -- cbn [snd]. rewrite drain_quiescent by reflexivity.
           repeat split; cbn; lia.
      * rewrite (outgoing_text _ _ _ _ _ H Hrest).
        apply dispatch_settles. apply says_send_translation.
    + rewrite (outgoing_no_match _ _ _ H). unfold run. cbn [exec snd].
      rewrite drain_quiescent by reflexivity. apply settled_boot.
  - destruct (is_other user s) eqn:Eo, (auto_translate_incoming (settings s)) eqn:Ea.
    + apply is_other_true in Eo.
      rewrite run_snd, (exec_incoming_public net s name user line Eo Ea), <- run_snd.
      apply dispatch_settles. apply says_notify.
    + rewrite (proj1 (run_incoming_idle net (S (S n)) s name user line
                        (or_introl Ea))). apply settled_boot.
    + apply is_other_false in Eo.
      rewrite (proj1 (run_incoming_idle net (S (S n)) s name user line
                        (or_intror Eo))). apply settled_boot.
    + rewrite (proj1 (run_incoming_idle net (S (S n)) s name user line
                        (or_introl Ea))). apply settled_boot.
  - destruct (is_other user s) eqn:Eo, (auto_translate_incoming (settings s)) eqn:Ea.
    + apply is_other_true in Eo.
      rewrite run_snd, (exec_incoming_private net s user line Eo Ea), <- run_snd.
      apply dispatch_settles. apply says_notify.
    + rewrite (proj2 (run_incoming_idle net (S (S n)) s name user line
                        (or_introl Ea))). apply settled_boot.
    + apply is_other_false in Eo.
      rewrite (proj2 (run_incoming_idle net (S (S n)) s name user line
                        (or_intror Eo))). apply settled_boot.
    + rewrite (proj2 (run_incoming_idle net (S (S n)) s name user line
                        (or_introl Ea))). apply settled_boot.
Qed.

End Bounded.

(** ** The translate command *)

Section TranslateCommand.
Context {U : Unicode}.
Variable net : request -> response.

Lemma shlex_whitespace_isspace (c : char) :
  shlex_whitespace c = true -> isspace c = true.
Proof.
  unfold shlex_whitespace. rewrite !orb_true_iff, !N.eqb_eq.
  intros [[[->| ->]| ->]| ->]; now rewrite isspace_ascii.
Qed.

Lemma lstrip_blank (s : str) : forallb isspace s = true -> lstrip s = [].
Proof.
  induction s as [|c s IH]; [reflexivity|]. cbn.
  intros H. apply andb_true_iff in H as (Hc & Hs). rewrite Hc. now apply IH.
Qed.

Lemma strip_blank (s : str) : forallb isspace s = true -> strip s = [].
Proof.
  intros H. unfold strip, rstrip.
  rewrite (lstrip_blank (rev s)); [reflexivity|].
  rewrite forallb_forall in *. intros c Hc. apply H. now apply in_rev.
Qed.

Lemma shlex_blank (s : str) :
  forallb shlex_whitespace s = true -> shlex_split s = Some [].
Proof.
  unfold shlex_split. induction s as [|c s IH]; [reflexivity|]. cbn.
  intros H. apply andb_true_iff in H as (Hc & Hs). rewrite Hc. now apply IH.
Qed.

Lemma lower_nil : lower [] = [].
Proof. now rewrite lower_ascii by constructor. Qed.

(** X13.  Called with an argument that is empty or consists only of
    spaces, tabs, carriage returns and line feeds (the four characters
    the tokenizer skips), the translate command prints its usage line
    and fails; it translates nothing, not even a remembered message. *)
Theorem blank_command_prints_usage (n : nat) (s : plugin) (args : str)
    (user room : option str) :
  forallb shlex_whitespace args = true ->
  run net n (translate_command args user room) s =
  (Returned false,
   logged MainThread (Output (py "Usage: /translate [TARGET_LANG] <text..>")) (boot s)).
Proof.
  intros H. unfold run, translate_command.
  rewrite strip_blank, lower_nil.
  - change (one_of [] [py "version"; py "-v"; py "--version"]) with false.
    change (one_of [] [py "help"; py "-h"; py "--help"; py "?"]) with false.
    cbn iota. rewrite (shlex_blank _ H). cbn [exec bind do].
    now rewrite drain_quiescent.
  - rewrite forallb_forall in *. intros c Hc. apply shlex_whitespace_isspace, H, Hc.
Qed.

Lemma exec_via_deepl_answer (t : thread) (w : world) (text out : str)
    (lang : option str) :
  str_falsy (key_of (self w)) = false ->
  answers_with net (request_of (self w) text lang) out ->
  exec net t (_translate_via_deepl text lang) w =
  (Returned (PStr out), logged t (Urlopen (request_of (self w) text lang)) w).
Proof.
  intros Hkey (d & o & more & Hnet & Hmsg & Herr & Htr & Hout).
  rewrite (exec_via_deepl_success net t w text lang d o more); try assumption.
  now rewrite Hout.
Qed.

Lemma not_subcommand (args : str) :
  is_subcommand args = false ->
  one_of (lower (strip args)) [py "version"; py "-v"; py "--version"] = false
  /\ one_of (lower (strip args)) [py "help"; py "-h"; py "--help"; py "?"] = false.
Proof. unfold is_subcommand. intros H. now apply orb_false_iff in H. Qed.

(** The command once its arguments are read, when there is a text. *)
Lemma command_with_text (args first : str) (others : list str)
    (user room : option str) :
  is_subcommand args = false ->
  command_tokens args = first :: others ->
  str_falsy (strip (command_text first others)) = false ->
  translate_command args user room =
  (translated <- _translate_via_deepl (command_text first others) (command_lang first) ;;
   if is_none translated then Ret false
   else
     stripped <- py_strip translated ;;
     do (deliver_to user room (_strip_wrapping_quotes stripped)) ;;;
     Ret true).
Proof.
  intros Hsub Htok Htext. apply not_subcommand in Hsub as (Hv & Hh).
  unfold translate_command. rewrite Hv, Hh. cbn iota.
  fold (command_tokens args). rewrite Htok.
  unfold command_text, command_lang in *.
  destruct (_looks_like_lang (_strip_wrapping_quotes first));
    rewrite Htext; unfold deliver_to; destruct room, user; reflexivity.
Qed.

(** X14.  Given a text, the translate command takes a first token that
    looks like a language code (once its wrapping quotes are removed)
    as the target and the remaining tokens, joined by single blanks, as
    the text; otherwise all tokens are the text and the default target
    applies.  It requests that translation on the calling thread and,
    when the provider answers with a translation, hands the translated
    text, stripped of blanks and of one layer of wrapping quotes, to the
    room if there is one, else to the peer, else prints it; then it
    returns [True]. *)
Theorem command_translates_and_delivers (n : nat) (s : plugin) (args first out : str)
    (others : list str) (user room : option str) :
  is_subcommand args = false ->
  command_tokens args = first :: others ->
  strip (command_text first others) <> [] ->
  str_falsy (key_of s) = false ->
  answers_with net (request_of s (command_text first others) (command_lang first)) out ->
  run net n (translate_command args user room) s =
  (Returned true,
   logged MainThread (deliver_to user room (_strip_wrapping_quotes (strip out)))
     (logged MainThread
        (Urlopen (request_of s (command_text first others) (command_lang first)))
        (boot s))).
Proof.
  intros Hsub Htok Htext Hkey Hans.
  assert (Hf : str_falsy (strip (command_text first others)) = false).
  { destruct (str_falsy (strip (command_text first others))) eqn:E; [|reflexivity].
    now apply str_falsy_nil in E. }
  rewrite (command_with_text _ _ _ _ _ Hsub Htok Hf). unfold run.
  rewrite exec_bind, (exec_via_deepl_answer MainThread (boot s) _ out) by assumption.
  cbn [is_none py_strip bind do exec self boot].
  now rewrite drain_quiescent.
Qed.

(** X15.  Given a text, when the user-facing client fails (it returns
    [None]) the translate command returns [False] and delivers nothing:
    all that has happened is what the client did, its request and its
    report.  With a blank API key that is the one message that the key
    is not set, and no request. *)
Theorem command_failure_delivers_nothing (n : nat) (s : plugin) (args first : str)
    (others : list str) (user room : option str) :
  is_subcommand args = false ->
  command_tokens args = first :: others ->
  strip (command_text first others) <> [] ->
  let via := exec net MainThread
               (_translate_via_deepl (command_text first others) (command_lang first))
               (boot s) in
  (fst via = Returned PNone ->
   run net n (translate_command args user room) s = (Returned false, snd via))
  /\ (str_falsy (key_of s) = true ->
      run net n (translate_command args user room) s
      = (Returned false, logged MainThread (Output msg_no_key) (boot s))).
Proof.
  intros Hsub Htok Htext via.
  assert (Hf : str_falsy (strip (command_text first others)) = false).
  { destruct (str_falsy (strip (command_text first others))) eqn:E; [|reflexivity].
    now apply str_falsy_nil in E. }
  rewrite (command_with_text _ _ _ _ _ Hsub Htok Hf). unfold run.
  rewrite exec_bind. fold via.
  destruct (exec_sequential net _ MainThread (boot s)
              (sequential_via_deepl (command_text first others) (command_lang first)))
    as (_ & Ht & Hq & _).
  fold via in Ht, Hq.
  split.
  - intros Hnone. destruct via as [r w]. cbn [fst snd] in *. subst r.
    cbn [is_none exec]. now rewrite drain_quiescent.
  - intros Hkey. subst via. unfold _translate_via_deepl. cbn [exec self boot].
    fold (key_of s). rewrite Hkey. cbn [exec bind do is_none].
    now rewrite drain_quiescent.
Qed.

(** The command once its arguments are read, when there is no text. *)
Lemma exec_command_without_text (args first : str) (others : list str)
    (user room : option str) (s : plugin) :
  is_subcommand args = false ->
  command_tokens args = first :: others ->
  str_falsy (strip (command_text first others)) = true ->
  exec net MainThread (translate_command args user room) (boot s) =
  match room, user with
  | Some room, _ =>
      match _last_public_message s !! room with
      | None =>
          (Returned false,
           logged MainThread (Output (py "No recent message to translate")) (boot s))
      | Some (_, last_text) =>
          exec net MainThread
            (translated <- _translate_via_deepl last_text (command_lang first) ;;
             if is_none translated then Ret false
             else
               stripped <- py_strip translated ;;
               do (EchoPublic room (_strip_wrapping_quotes stripped)) ;;;
               Ret true) (boot s)
      end
  | None, Some user =>
      match _last_private_message s !! user with
      | None =>
          (Returned false,
           logged MainThread (Output (py "No recent message to translate")) (boot s))
      | Some (_, last_text) =>
          exec net MainThread
            (translated <- _translate_via_deepl last_text (command_lang first) ;;
             if is_none translated then Ret false
             else
               stripped <- py_strip translated ;;
               do (EchoPrivate user (_strip_wrapping_quotes stripped)) ;;;
               Ret true) (boot s)
      end
  | None, None =>
      (Returned false, logged MainThread (Output (py "Nothing to translate")) (boot s))
  end.
Proof.
  intros Hsub Htok Htext. apply not_subcommand in Hsub as (Hv & Hh).
  unfold translate_command. rewrite Hv, Hh. cbn iota.
  fold (command_tokens args). rewrite Htok.
  unfold command_text, command_lang in *.
  destruct (_looks_like_lang (_strip_wrapping_quotes first));
    rewrite Htext; destruct room as [r|], user as [u|]; cbn [exec self boot];
    try reflexivity;
    try (destruct (_last_public_message s !! r) as [[lu lt]|]; reflexivity);
    try (destruct (_last_private_message s !! u) as [[lu lt]|]; reflexivity).
Qed.

(** X16.  Given a language but no text, the translate command turns to
    the last message remembered for the room, or else for the peer:
    with a translation from the provider it echoes the translated text
    locally and sends nothing; with nothing remembered, or outside any
    conversation, it says so and fails without a request. *)
Theorem command_without_text_echoes_last_message (n : nat) (s : plugin)
    (args first : str) (others : list str) (user room : option str) :
  is_subcommand args = false ->
  command_tokens args = first :: others ->
  strip (command_text first others) = [] ->
  let cmd := run net n (translate_command args user room) s in
  let nothing msg := (Returned false, logged MainThread (Output (py msg)) (boot s)) in
  (forall r, room = Some r -> remembered true r s = None ->
     cmd = nothing "No recent message to translate"%string)
  /\ (forall u, room = None -> user = Some u -> remembered false u s = None ->
        cmd = nothing "No recent message to translate"%string)
  /\ (room = None -> user = None -> cmd = nothing "Nothing to translate"%string)
  /\ (forall public name last_user last_text out,
        (public = true /\ room = Some name
         \/ public = false /\ room = None /\ user = Some name) ->
        remembered public name s = Some (last_user, last_text) ->
        str_falsy (key_of s) = false ->
        answers_with net (request_of s last_text (command_lang first)) out ->
        cmd = (Returned true,
               logged MainThread (echo public name (_strip_wrapping_quotes (strip out)))
                 (logged MainThread
                    (Urlopen (request_of s last_text (command_lang first)))
                    (boot s)))).
Proof.
  intros Hsub Htok Htext cmd nothing. apply str_falsy_nil in Htext.
  subst cmd nothing. unfold run.
  rewrite (exec_command_without_text _ _ _ _ _ s Hsub Htok Htext).
  split; [|split; [|split]].
  - intros r -> Hrem. cbn in Hrem. rewrite Hrem. now rewrite drain_quiescent.
  - intros u -> -> Hrem. cbn in Hrem. rewrite Hrem. now rewrite drain_quiescent.
  - intros -> ->. now rewrite drain_quiescent.
  - intros public name last_user last_text out Hwhere Hrem Hkey Hans.
    destruct Hwhere as [(-> & ->)|(-> & -> & ->)]; cbn in Hrem; rewrite Hrem;
      rewrite exec_bind, (exec_via_deepl_answer MainThread (boot s) _ out) by assumption;
      cbn [is_none py_strip bind do exec self boot echo];
      now rewrite drain_quiescent.
Qed.

End TranslateCommand.

(** ** The command that sets the incoming language *)

Section IncomingLanguage.
Context {U : Unicode}.
Variable net : request -> response.

Lemma looks_like_lang_nonempty (token : str) :
  _looks_like_lang token = true -> token <> [].
Proof. intros H ->. discriminate. Qed.

(** X17.  The incoming-language command stores only what the validator
    accepts.  A rejected argument changes nothing and is answered with
    the error message.  An accepted one (blanks and quote characters
    removed from both ends) becomes the setting and the stored
    configuration value alike, all else unchanged, and it is the target
    of the next auto-translation of an incoming line. *)
Theorem incoming_language_command (args : str) (user room : option str)
    (section : gmap str pyval) (s : plugin) (chat user' line : str) :
  let lang := strip_chars [dquote; squote] (strip args) in
  let done := exec net MainThread (set_incoming_lang_command args user room section)
                (boot s) in
  let s1 := self (snd done) in
  (_looks_like_lang lang = false ->
     done = (Returned (false, section),
             logged MainThread
               (Output (py "Invalid target language. Example: EN-GB, EN-US, DE, ES"))
               (boot s)))
  /\ (_looks_like_lang lang = true ->
      fst done = Returned (true, <[py "auto_incoming_target_lang" := PStr lang]> section)
      /\ log (snd done)
         = [(MainThread, Output (py "Incoming auto-translate target set to " ++ lang))]
      /\ threads (snd done) = [] /\ main_queue (snd done) = []
      /\ auto_incoming_target_lang (settings s1) = lang
      /\ api_key (settings s1) = api_key (settings s)
      /\ target_lang (settings s1) = target_lang (settings s)
      /\ preserve_formatting (settings s1) = preserve_formatting (settings s)
      /\ auto_translate_incoming (settings s1) = auto_translate_incoming (settings s)
      /\ _last_public_message s1 = _last_public_message s
      /\ _last_private_message s1 = _last_private_message s
      /\ login_username s1 = login_username s
      /\ (Some user' <> login_username s ->
          auto_translate_incoming (settings s) = true ->
          let s2 := set_last_public <[chat := (user', line)]> s1 in
          log (snd (run net 1 (incoming_public_chat_notification chat user' line) s1))
          = log (after_request s2 line (Some lang))
          /\ param (py "target_lang") (request_of s2 line (Some lang)) = Some lang)).
Proof.
  intros lang done s1. subst s1 done. unfold set_incoming_lang_command. fold lang.
  split.
  - intros H. rewrite H. reflexivity.
  - intros H. rewrite H. cbn [negb exec bind do self boot snd fst log settings
                             auto_incoming_target_lang api_key target_lang
                             preserve_formatting auto_translate_incoming
                             _last_public_message _last_private_message login_username
                             with_self logged threads main_queue app].
    repeat split.
    + rename H0 into Ho, H1 into Ha.
      set (s1 := {| settings := _; _last_public_message := _;
                    _last_private_message := _; login_username := _ |}) in *.
      assert (Hs2 : incoming_target s1 = lang).
      { unfold incoming_target. cbn. destruct lang; [discriminate H|reflexivity]. }
      rewrite run_snd.
      rewrite (exec_incoming_public net s1 chat user' line Ho Ha).
      rewrite Hs2. rewrite exec_dispatch. cbn [snd drain threads with_threads].
      change (with_threads [] (with_threads _ (boot ?x))) with (boot x).
      rewrite exec_worker.
      destruct (detect_result net _ line (Some lang)); reflexivity.
    + unfold param. rewrite request_of_target by now apply looks_like_lang_nonempty.
      cbn [assoc_str].
      change (str_eqb (py "auth_key") (py "target_lang")) with false.
      change (str_eqb (py "text") (py "target_lang")) with false.
      change (str_eqb (py "target_lang") (py "target_lang")) with true.
      reflexivity.
Qed.

End IncomingLanguage.

(** ** More on the handlers *)

Section HandlerFacts.
Context {U : Unicode}.
Variable net : request -> response.

Lemma keeps_self_outgoing (public : bool) (name line : str) :
  keeps_self (outgoing_chat_event public name line).
Proof.
  destruct public; cbn [outgoing_chat_event];
    unfold outgoing_public_chat_event, outgoing_private_chat_event,
      _handle_outgoing_shortcut; keep_self.
Qed.

(** X18.  Outgoing lines never change the plugin: under every schedule
    of what an outgoing public or private line sets off, settings and
    Conversation Memory are what they were. *)
Theorem outgoing_keeps_state (s : plugin) (public : bool) (name line : str)
    (w' : world) :
  reaches net (outgoing_chat_event public name line) s w' -> self w' = s.
Proof.
  unfold reaches. intros Hr.
  destruct (exec_keeps_self net (outgoing_chat_event public name line) MainThread
              (boot s) (keeps_self_outgoing public name line) (boot_pending s))
    as (Hs & Hp).
  now rewrite (schedule_keeps_self net _ _ Hr Hp).
Qed.

(** X19.  The sub-commands of the translate command are local: when the
    argument, stripped and lower-cased, is one of the version or help
    names, the command prints the version line, or the help text with
    the current settings, and succeeds without a request, even with an
    API key configured and whatever conversation it is typed in. *)
Theorem subcommands_are_local (n : nat) (s : plugin) (args : str)
    (user room : option str) :
  is_subcommand args = true ->
  run net n (translate_command args user room) s =
  (Returned true,
   logged MainThread
     (Output (if one_of (lower (strip args)) [py "version"; py "-v"; py "--version"]
              then py "DeepL Translate v" ++ PLUGIN_VERSION
              else join [newline] (help_lines (settings s))))
     (boot s)).
Proof.
  unfold is_subcommand, run, translate_command. intros H.
  destruct (one_of (lower (strip args)) [py "version"; py "-v"; py "--version"]).
  - cbn [version_command exec bind do]. now rewrite drain_quiescent.
  - cbn [orb] in H. rewrite H.
    cbn [translate_help_command exec bind do self boot]. now rewrite drain_quiescent.
Qed.

Lemma run_incoming_worker (s : plugin) (room user line : str) :
  Some user <> login_username s ->
  auto_translate_incoming (settings s) = true ->
  log (snd (run net 1 (incoming_public_chat_notification room user line) s))
    = log (after_request (set_last_public <[room := (user, line)]> s) line
             (Some (incoming_target s)))
  /\ log (snd (run net 1 (incoming_private_chat_notification user line) s))
    = log (after_request (set_last_private <[user := (user, line)]> s) line
             (Some (incoming_target s))).
Proof.
  intros Ho Ha. rewrite !run_snd.
  rewrite (exec_incoming_public net s room user line Ho Ha).
  rewrite (exec_incoming_private net s user line Ho Ha).
  rewrite !exec_dispatch. cbn [snd drain threads with_threads].
  change (with_threads [] (with_threads _ (boot ?x))) with (boot x).
  rewrite !exec_worker.
  split.
  - destruct (detect_result net _ line (Some (incoming_target s))); reflexivity.
  - destruct (detect_result net _ line (Some (incoming_target s))); reflexivity.
Qed.

Lemma incoming_target_nonempty (s : plugin) : incoming_target s <> [].
Proof. apply str_or_nonempty. discriminate. Qed.

Lemma param_target (s : plugin) (text target : str) :
  target <> [] ->
  param (py "text") (request_of s text (Some target)) = Some text
  /\ param (py "target_lang") (request_of s text (Some target)) = Some target.
Proof.
  intros H. unfold param. rewrite request_of_target by exact H. cbn [assoc_str].
  change (str_eqb (py "auth_key") (py "target_lang")) with false.
  change (str_eqb (py "text") (py "target_lang")) with false.
  change (str_eqb (py "target_lang") (py "target_lang")) with true.
  change (str_eqb (py "auth_key") (py "text")) with false.
  change (str_eqb (py "text") (py "text")) with true.
  now split.
Qed.

(** X5.  With an API key and auto-translate on, a line from another
    user makes the notifier's worker send exactly one request, provided
    the line, the key and the incoming target language hold no
    surrogate code point: for the line as received, into the incoming
    target language, or into EN-GB when that setting is empty.  The
    outgoing default target plays no part. *)
Theorem incoming_line_request (s : plugin) (room user line : str) :
  Some user <> login_username s ->
  auto_translate_incoming (settings s) = true ->
  str_falsy (key_of s) = false ->
  encodable line = true ->
  encodable (key_of s) = true ->
  encodable (auto_incoming_target_lang (settings s)) = true ->
  let target := match auto_incoming_target_lang (settings s) with
                | [] => py "EN-GB"
                | c :: l => c :: l
                end in
  exists in_room in_private,
    log (snd (run net 1 (incoming_public_chat_notification room user line) s))
      = [(WorkerThread, Urlopen in_room)]
    /\ log (snd (run net 1 (incoming_private_chat_notification user line) s))
      = [(WorkerThread, Urlopen in_private)]
    /\ param (py "text") in_room = Some line
    /\ param (py "target_lang") in_room = Some target
    /\ param (py "text") in_private = Some line
    /\ param (py "target_lang") in_private = Some target.
Proof.
  intros Ho Ha Hkey _ _ _ target.
  assert (Ht : incoming_target s = target).
  { unfold incoming_target, target, str_or.
    now destruct (auto_incoming_target_lang (settings s)). }
  destruct (run_incoming_worker s room user line Ho Ha) as (Hpub & Hpriv).
  rewrite Ht in Hpub, Hpriv.
  assert (Hne : target <> []) by (rewrite <- Ht; apply incoming_target_nonempty).
  exists (request_of (set_last_public <[room := (user, line)]> s) line (Some target)),
    (request_of (set_last_private <[user := (user, line)]> s) line (Some target)).
  rewrite Hpub, Hpriv. unfold after_request.
  change (key_of (set_last_public _ s)) with (key_of s).
  change (key_of (set_last_private _ s)) with (key_of s).
  rewrite Hkey.
  destruct (param_target (set_last_public <[room := (user, line)]> s) line target Hne).
  destruct (param_target (set_last_private <[user := (user, line)]> s) line target Hne).
  repeat split; assumption.
Qed.

End HandlerFacts.

(** ** The properties above at sample inputs *)

Lemma user_client_reports_each_failure_witness :
  str_falsy (key_of (U := ascii_only) (self (boot configured_plugin))) = false
  /\ exec (fun _ => NotJson) MainThread
       (_translate_via_deepl (U := ascii_only) (py "hello") (Some (py "FR")))
       (boot configured_plugin)
     = (Returned PNone,
        logged MainThread (Output (py "Failed to parse DeepL response"))
          (logged MainThread
             (Urlopen (request_of (U := ascii_only) configured_plugin (py "hello")
                         (Some (py "FR"))))
             (boot configured_plugin))).
Proof.
  split; [reflexivity|].
  apply (proj1 (proj2 (user_client_reports_each_failure (U := ascii_only)
                         (fun _ => NotJson) MainThread (boot configured_plugin)
                         (py "hello") (Some (py "FR")) eq_refl))).
  reflexivity.
Defined.

Lemma non_object_payload_raises_witness :
  str_falsy (key_of (U := ascii_only) configured_plugin) = false
  /\ (forall d, PList [] <> PDict d)
  /\ exec (fun _ => Json (PList [])) WorkerThread
       (_translate_and_detect (U := ascii_only) (py "hola") (Some (py "EN-GB")))
       (boot configured_plugin)
     = (Raised AttributeError,
        after_request (U := ascii_only) configured_plugin (py "hola") (Some (py "EN-GB"))).
Proof.
  split; [reflexivity|]. split; [discriminate|].
  apply (non_object_payload_raises (U := ascii_only) (fun _ => Json (PList []))
           configured_plugin (py "hola") (Some (py "EN-GB")) (PList []));
    [reflexivity | reflexivity | discriminate].
Defined.

Lemma suppressed_line_shape_witness :
  fst (run (fun _ => NotJson) 2
         (outgoing_chat_event (U := ascii_only) true (py "room") (py "@ES buenos dias"))
         configured_plugin)
    = Returned (Some rc_zap)
  /\ exists ws target ws2 text tail,
       py "@ES buenos dias" = ws ++ at_sign :: target ++ ws2 ++ text ++ tail
       /\ forallb (isspace (Unicode := ascii_only)) ws = true
       /\ (2 <= length target <= 10)%nat
       /\ forallb lang_class target = true
       /\ forallb (isspace (Unicode := ascii_only)) ws2 = true
       /\ forallb not_newline text = true
       /\ (tail = [] \/ tail = [newline]).
Proof.
  split; [reflexivity|].
  apply (suppressed_line_shape (U := ascii_only) (fun _ => NotJson) 2
           configured_plugin true (py "room") (py "@ES buenos dias")).
  reflexivity.
Defined.

Lemma shortcut_line_is_suppressed_witness :
  forallb not_newline (py " buenos dias") = true
  /\ fst (run (fun _ => NotJson) 2
            (outgoing_chat_event (U := ascii_only) false (py "bob")
               (py "@ES buenos dias"))
            fresh_plugin)
     = Returned (Some rc_zap).
Proof.
  split; [reflexivity|].
  apply (shortcut_line_is_suppressed (U := ascii_only) (fun _ => NotJson) 2
           fresh_plugin false (py "bob") [] (py " buenos dias") 69 83);
    reflexivity.
Defined.

Lemma bare_shortcut_without_memory_witness :
  shortcut_match (U := ascii_only) (py "@ES") = Some (py "ES", [])
  /\ remembered true (py "room") configured_plugin = None
  /\ run (fun _ => Json (PDict hallo_payload)) 2
       (outgoing_chat_event (U := ascii_only) true (py "room") (py "@ES"))
       configured_plugin
     = (Returned (Some rc_zap),
        logged MainThread (Output (py "No recent message to translate"))
          (boot configured_plugin)).
Proof.
  split; [reflexivity|]. split; [reflexivity|].
  apply (bare_shortcut_without_memory (U := ascii_only)
           (fun _ => Json (PDict hallo_payload)) 2 configured_plugin true
           (py "room") (py "@ES") (py "ES") []); reflexivity.
Defined.

Lemma failed_shortcut_is_dropped_witness :
  shortcut_match (U := ascii_only) (py "@ES buenos dias")
    = Some (py "ES", py "buenos dias")
  /\ run (fun _ => NotJson) 2
       (outgoing_chat_event (U := ascii_only) true (py "room") (py "@ES buenos dias"))
       configured_plugin
     = (Returned (Some rc_zap),
        after_request (U := ascii_only) configured_plugin
          (strip (U := ascii_only) (py "buenos dias")) (Some (py "ES"))).
Proof.
  split; [reflexivity|].
  apply (failed_shortcut_is_dropped (U := ascii_only) (fun _ => NotJson) 0
           configured_plugin true (py "room") (py "@ES buenos dias")
           (py "ES") (py "buenos dias"));
    [reflexivity | discriminate | right; right; reflexivity].
Defined.


Lemma incoming_without_translation_witness :
  Some (py "me") = login_username configured_plugin
  /\ run (fun _ => Json (PDict hallo_payload)) 2
       (incoming_public_chat_notification (U := ascii_only)
          (py "room") (py "me") (py "hello"))
       configured_plugin
     = (Returned tt, boot configured_plugin).
Proof.
  split; [reflexivity|].
  apply (proj1 (incoming_without_translation (U := ascii_only)
                  (fun _ => Json (PDict hallo_payload)) 2 configured_plugin
                  (py "room") (py "me") (py "hello") (or_intror eq_refl))).
Defined.

Lemma blank_command_prints_usage_witness :
  forallb shlex_whitespace (py "  ") = true
  /\ run (fun _ => NotJson) 0
       (translate_command (U := ascii_only) (py "  ") None (Some (py "room")))
       configured_plugin
     = (Returned false,
        logged MainThread (Output (py "Usage: /translate [TARGET_LANG] <text..>"))
          (boot configured_plugin)).
Proof.
  split; [reflexivity|].
  apply (blank_command_prints_usage (U := ascii_only)). reflexivity.
Defined.

Lemma hallo_answers (r : request) :
  answers_with (U := ascii_only) (fun _ => Json (PDict hallo_payload)) r (py "Hallo").
Proof.
  exists hallo_payload, hallo_translation, [].
  split; [reflexivity|]. split; [exact I|]. repeat split.
Defined.

Lemma command_translates_and_delivers_witness :
  is_subcommand (U := ascii_only) (py "FR how are you") = false
  /\ command_tokens (U := ascii_only) (py "FR how are you")
     = [py "FR"; py "how"; py "are"; py "you"]
  /\ run (fun _ => Json (PDict hallo_payload)) 0
       (translate_command (U := ascii_only) (py "FR how are you") None
          (Some (py "room")))
       configured_plugin
     = (Returned true,
        logged MainThread (SendPublic (py "room") (py "Hallo"))
          (logged MainThread
             (Urlopen (request_of (U := ascii_only) configured_plugin
                         (py "how are you") (Some (py "FR"))))
             (boot configured_plugin))).
Proof.
  split; [reflexivity|]. split; [reflexivity|].
  apply (command_translates_and_delivers (U := ascii_only)
           (fun _ => Json (PDict hallo_payload)) 0 configured_plugin
           (py "FR how are you") (py "FR") (py "Hallo")
           [py "how"; py "are"; py "you"] None (Some (py "room")));
    [reflexivity | reflexivity | discriminate | reflexivity | apply hallo_answers].
Defined.

Lemma command_failure_delivers_nothing_witness :
  is_subcommand (U := ascii_only) (py "FR hello") = false
  /\ run (fun _ => NotJson) 0
       (translate_command (U := ascii_only) (py "FR hello") (Some (py "bob")) None)
       fresh_plugin
     = (Returned false, logged MainThread (Output msg_no_key) (boot fresh_plugin)).
Proof.
  split; [reflexivity|].
  apply (proj2 (command_failure_delivers_nothing (U := ascii_only) (fun _ => NotJson) 0
                  fresh_plugin (py "FR hello") (py "FR") [py "hello"]
                  (Some (py "bob")) None eq_refl eq_refl
                  ltac:(discriminate))).
  reflexivity.
Defined.

Lemma command_without_text_echoes_last_message_witness :
  is_subcommand (U := ascii_only) (py "FR") = false
  /\ remembered true (py "room") bob_in_room = Some (py "bob", py "hola")
  /\ run (fun _ => Json (PDict hallo_payload)) 0
       (translate_command (U := ascii_only) (py "FR") None (Some (py "room")))
       bob_in_room
     = (Returned true,
        logged MainThread (EchoPublic (py "room") (py "Hallo"))
          (logged MainThread
             (Urlopen (request_of (U := ascii_only) bob_in_room (py "hola")
                         (Some (py "FR"))))
             (boot bob_in_room))).
Proof.
  split; [reflexivity|]. split; [reflexivity|].
  apply (proj2 (proj2 (proj2
           (command_without_text_echoes_last_message (U := ascii_only)
              (fun _ => Json (PDict hallo_payload)) 0 bob_in_room
              (py "FR") (py "FR") [] None (Some (py "room"))
              eq_refl eq_refl eq_refl)))
           true (py "room") (py "bob") (py "hola") (py "Hallo"));
    [left; split; reflexivity | reflexivity | reflexivity | apply hallo_answers].
Defined.

Lemma outgoing_keeps_state_witness :
  self (snd (run (fun _ => Json (PDict hallo_payload)) 2
               (outgoing_chat_event (U := ascii_only) true (py "room")
                  (py "@ES buenos dias"))
               bob_in_room))
  = bob_in_room.
Proof.
  apply (outgoing_keeps_state (U := ascii_only) (fun _ => Json (PDict hallo_payload))
           bob_in_room true (py "room") (py "@ES buenos dias")).
  apply run_reaches.
Defined.

Lemma subcommands_are_local_witness :
  is_subcommand (U := ascii_only) (py " Version ") = true
  /\ run (fun _ => Json (PDict hallo_payload)) 0
       (translate_command (U := ascii_only) (py " Version ") None (Some (py "room")))
       configured_plugin
     = (Returned true,
        logged MainThread (Output (py "DeepL Translate v0.3.4")) (boot configured_plugin)).
Proof.
  split; [reflexivity|].
  apply (subcommands_are_local (U := ascii_only) (fun _ => Json (PDict hallo_payload)) 0
           configured_plugin (py " Version ") None (Some (py "room"))).
  reflexivity.
Defined.

Lemma incoming_line_request_witness :
  Some (py "bob") <> login_username configured_plugin
  /\ encodable (py "hola") = true
  /\ encodable (key_of (U := ascii_only) configured_plugin) = true
  /\ encodable (auto_incoming_target_lang (settings configured_plugin)) = true
  /\ exists in_room in_private,
       log (snd (run (fun _ => NotJson) 1
                   (incoming_public_chat_notification (U := ascii_only)
                      (py "room") (py "bob") (py "hola"))
                   configured_plugin))
         = [(WorkerThread, Urlopen in_room)]
       /\ log (snd (run (fun _ => NotJson) 1
                      (incoming_private_chat_notification (U := ascii_only)
                         (py "bob") (py "hola"))
                      configured_plugin))
         = [(WorkerThread, Urlopen in_private)]
       /\ param (py "text") in_room = Some (py "hola")
       /\ param (py "target_lang") in_room = Some (py "EN-GB")
       /\ param (py "text") in_private = Some (py "hola")
       /\ param (py "target_lang") in_private = Some (py "EN-GB").
Proof.
  split; [discriminate|]. do 3 (split; [reflexivity|]).
  apply (incoming_line_request (U := ascii_only) (fun _ => NotJson) configured_plugin
           (py "room") (py "bob") (py "hola"));
    [discriminate | reflexivity | reflexivity | reflexivity | reflexivity
    | reflexivity].
Defined.

(** ** The requests the clients send *)

Section Requests.
Context {U : Unicode}.
Variable net : request -> response.

Lemma says_via_answer (payload : pyval) :
  says_at_most 1
    (err <- provider_error payload ;;
     match err with
     | Some message => do (Output (py "DeepL error: " ++ message)) ;;; Ret PNone
     | None =>
         translations <- py_get payload (py "translations") PNone ;;
         if negb (truthy translations) then
           do (Output (py "DeepL returned no translations")) ;;; Ret PNone
         else
           first <- py_item0 translations ;;
           py_get first (py "text") (PStr [])
     end).
Proof.
  apply says_at_most_bind_leaf; [apply leaf_provider_error|].
  intros [message|]; [cbn; auto|].
  apply says_at_most_bind_leaf; [apply leaf_py_get|]. intros translations.
  destruct (negb (truthy translations)); [cbn; auto|].
  apply says_at_most_bind_leaf; [apply leaf_py_item0|]. intros first.
  apply says_at_most_leaf, leaf_py_get.
Qed.

(** X2.  Each call of a client sends at most one request, and none with
    a blank API key.  Besides its request the user-facing client leaves
    at most one message and the silent client nothing.  The request
    goes to the fixed DeepL URL with a 15 second timeout and carries
    the stripped key, the text as given, and a target language that is
    never empty: the explicit one if non-empty, else the configured
    outgoing target, else EN-US. *)
Theorem clients_send_one_request (t : thread) (s : plugin) (text : str)
    (lang : option str) :
  let req := request_of s text lang in
  let called := if str_falsy (key_of s) then boot s
                else logged t (Urlopen req) (boot s) in
  (exists es, (length es <= 1)%nat
     /\ Forall (fun e => touches_ui e = true) es
     /\ snd (exec net t (_translate_via_deepl text lang) (boot s))
        = extend called (map (pair t) es))
  /\ snd (exec net t (_translate_and_detect text lang) (boot s)) = called
  /\ url req = DEEPL_API_URL
  /\ timeout req = 15%Z
  /\ param (py "auth_key") req = Some (key_of s)
  /\ param (py "text") req = Some text
  /\ param (py "target_lang") req
     = Some (match lang with
             | Some (c :: l) => c :: l
             | _ => match target_lang (settings s) with
                    | c :: l => c :: l
                    | [] => py "EN-US"
                    end
             end)
  /\ (exists target, param (py "target_lang") req = Some target /\ target <> []).
Proof.
  intros req called. subst req called.
  destruct (build_request_params (settings s) (key_of s) text lang)
    as (Hurl & Htime & _ & Hkey & Htext & Htl & Hne & _).
  split; [|split; [|repeat split; assumption]].
  - unfold _translate_via_deepl. cbn [exec self boot]. fold (key_of s).
    destruct (str_falsy (key_of s)).
    + exists [Output msg_no_key]. split; [cbn; lia|]. split; [repeat constructor|].
      reflexivity.
    + fold (request_of s text lang). cbn [exec].
      destruct (net (request_of s text lang)) as [cause| |payload].
      * eexists [Output _]. split; [cbn; lia|]. split; [repeat constructor|].
        reflexivity.
      * eexists [Output _]. split; [cbn; lia|]. split; [repeat constructor|].
        reflexivity.
      * apply exec_says_at_most, says_via_answer.
  - rewrite exec_detect. reflexivity.
Qed.

End Requests.

Lemma incoming_language_command_witness :
  _looks_like_lang (U := ascii_only)
    (strip_chars [dquote; squote]
       (strip (U := ascii_only) ([dquote] ++ py "EN-US" ++ [dquote]))) = true
  /\ fst (exec (fun _ => NotJson) MainThread
            (set_incoming_lang_command (U := ascii_only)
               ([dquote] ++ py "EN-US" ++ [dquote]) None None ∅)
            (boot configured_plugin))
     = Returned (true, {[ py "auto_incoming_target_lang" := PStr (py "EN-US") ]}).
Proof.
  split; [reflexivity|].
  apply (proj2 (incoming_language_command (U := ascii_only) (fun _ => NotJson)
                  ([dquote] ++ py "EN-US" ++ [dquote]) None None ∅
                  configured_plugin (py "room") (py "bob") (py "hola"))).
  reflexivity.
Defined.
